(** * up_local csv playlists: a shallow embedding of the plugin's [run]

    Source: [src/ultrasonics/official_plugins/up_local csv playlists.py].

    Python text is modelled as [string]: the characters the code inspects
    (slash, back-slash, dot, comma, quote, CR, LF) are single bytes that never
    occur inside a multi-byte UTF-8 sequence, so the byte view and the
    code-point view agree on every operation below.  The file system is a tree
    of files and directories with POSIX path resolution; [os.path] is
    [posixpath]. *)

From Stdlib Require Import ZArith Ascii String List Bool Lia.
From stdpp Require Import base option gmap strings.
Import ListNotations.

Local Open Scope string_scope.
Local Open Scope list_scope.

(** ** Python [str] operations used by the plugin *)

Module PyStr.

Definition chr_slash : ascii := "/"%char.
Definition chr_backslash : ascii := "\"%char.
Definition chr_dot : ascii := "."%char.
Definition chr_comma : ascii := ","%char.
Definition chr_quote : ascii := "034"%char.
Definition chr_lf : ascii := "010"%char.
Definition chr_cr : ascii := "013"%char.

(** [c in chars] for a one-character [c]. *)
Fixpoint in_chars (c : ascii) (chars : string) : bool :=
  match chars with
  | EmptyString => false
  | String a rest => Ascii.eqb c a || in_chars c rest
  end.

(** [s.rstrip(chars)]: drop the longest suffix made of characters of
    [chars]. *)
Fixpoint rstrip (chars : string) (s : string) : string :=
  match s with
  | EmptyString => EmptyString
  | String a s' =>
      match rstrip chars s' with
      | EmptyString => if in_chars a chars then EmptyString else String a EmptyString
      | r => String a r
      end
  end.

(** [s[-1:]], as an option. *)
Fixpoint last_char (s : string) : option ascii :=
  match s with
  | EmptyString => None
  | String a EmptyString => Some a
  | String _ s' => last_char s'
  end.

(** [s.endswith(c)] for a one-character [c]. *)
Definition endswith (s : string) (c : ascii) : bool :=
  match last_char s with
  | Some a => Ascii.eqb a c
  | None => false
  end.

(** [s.startswith(c)] for a one-character [c]. *)
Definition startswith (s : string) (c : ascii) : bool :=
  match s with
  | String a _ => Ascii.eqb a c
  | EmptyString => false
  end.

(** Every character of [s] belongs to [chars]. *)
Fixpoint all_in (chars : string) (s : string) : bool :=
  match s with
  | EmptyString => true
  | String a s' => in_chars a chars && all_in chars s'
  end.

(** [s.rfind(c)] for a one-character [c]: the highest index, or [-1]. *)
Fixpoint rfind (s : string) (c : ascii) : Z :=
  match s with
  | EmptyString => (-1)%Z
  | String a s' =>
      let r := rfind s' c in
      if (0 <=? r)%Z then (r + 1)%Z
      else if Ascii.eqb a c then 0%Z else (-1)%Z
  end.

(** [s[:n]] and [s[n:]] for [0 <= n]. *)
Fixpoint take (n : nat) (s : string) : string :=
  match n, s with
  | S n', String a s' => String a (take n' s')
  | _, _ => EmptyString
  end.

Fixpoint drop (n : nat) (s : string) : string :=
  match n, s with
  | S n', String _ s' => drop n' s'
  | _, _ => s
  end.

(** [c in s]. *)
Definition contains (s : string) (c : ascii) : bool := in_chars c s.

(** [x in l] for a list of strings. *)
Definition in_list (x : string) (l : list string) : bool :=
  existsb (String.eqb x) l.

End PyStr.

(** ** [os.path] (posixpath) *)

Module os_path.
Import PyStr.

(** [genericpath._splitext(p, sep, altsep=None, extsep)]: the extension
    starts at the last dot of the last path component, unless only dots
    precede it in that component. *)
Fixpoint only_dots_between (p : string) (filenameIndex : nat) (count : nat) : bool :=
  match count with
  | O => true
  | S count' =>
      match String.get filenameIndex p with
      | Some a =>
          if Ascii.eqb a chr_dot
          then only_dots_between p (S filenameIndex) count'
          else false
      | None => false
      end
  end.

Definition splitext (p : string) : string * string :=
  let sepIndex := rfind p chr_slash in
  let dotIndex := rfind p chr_dot in
  if (sepIndex <? dotIndex)%Z then
    let filenameIndex := (sepIndex + 1)%Z in
    if only_dots_between p (Z.to_nat filenameIndex)
         (Z.to_nat (dotIndex - filenameIndex))
    then (p, EmptyString)
    else (take (Z.to_nat dotIndex) p, drop (Z.to_nat dotIndex) p)
  else (p, EmptyString).

(** [posixpath.join(a, b)] for two arguments. *)
Definition join (a b : string) : string :=
  if startswith b chr_slash then b
  else if (String.eqb a EmptyString || endswith a chr_slash)%bool then a ++ b
  else a ++ "/" ++ b.

End os_path.

(** ** Exceptions, the file system and the log *)

Inductive os_error : Set :=
  | FileNotFoundError | NotADirectoryError | PermissionError | IsADirectoryError.

Inductive csv_error : Set :=
  | field_larger_than_limit      (* field larger than field limit (131072) *)
  | newline_in_unquoted_field.   (* new-line character seen in unquoted field *)

Inductive exn : Set :=
  | KeyError (key : string)
  | OSError (e : os_error) (filename : string)
  | UnicodeDecodeError
  | IndexError
  | csv_Error (e : csv_error).

(** What opening a regular file with [io.open(path, 'r', encoding='utf8')]
    and reading it gives: its decoded text, an [OSError] at [open] for lack
    of permission, or a decoding error.  The decoding error is placed at
    the first read, before any row; the code decodes as it iterates, so it
    may meet an earlier exception of a row first.  Either way the run
    raises. *)
Inductive file_content : Set :=
  | Text (s : string)
  | Unreadable
  | Undecodable.

(** A directory keeps its entries in enumeration order; [listable] is the
    permission to list it. *)
#[warnings="-register-all"]
Inductive node : Set :=
  | File (c : file_content)
  | Dir (listable : bool) (entries : list (string * node)).

(** The f-strings of [log.info], kept structured. *)
Inductive info_msg : Set :=
  | Found_playlists (n : nat)    (* Found {n} playlist(s) in supplied directory. *)
  | Match_filter (n : nat).      (* {n} playlist(s) match supplied filter. *)

Inductive log_record : Set :=
  | log_error (e : exn)
  | log_info (m : info_msg).

Record world : Set := World {
  fs_root : node;               (* the tree mounted at / *)
  fs_cwd : list string;         (* the working directory, as components from / *)
  log : list log_record         (* what the module logger has received, oldest first *)
}.

Definition is_dir (n : node) : bool :=
  match n with Dir _ _ => true | File _ => false end.

Module fs.
Import PyStr.

(** [s.split(c)]. *)
Fixpoint split (s : string) (c : ascii) : list string :=
  match s with
  | EmptyString => [EmptyString]
  | String a s' =>
      let r := split s' c in
      if Ascii.eqb a c then EmptyString :: r
      else match r with
           | x :: xs => String a x :: xs
           | [] => [String a EmptyString]
           end
  end.

Fixpoint assoc (k : string) (es : list (string * node)) : option node :=
  match es with
  | [] => None
  | (k', n) :: es' => if String.eqb k k' then Some n else assoc k es'
  end.

(** The node reached from [n] through the entry names [comps]. *)
Fixpoint lookup_node (n : node) (comps : list string) : option node :=
  match comps with
  | [] => Some n
  | c :: cs =>
      match n with
      | Dir _ es =>
          match assoc c es with
          | Some child => lookup_node child cs
          | None => None
          end
      | File _ => None
      end
  end.

(** One step of path resolution; [stack] is the current directory as
    reversed components from the root. *)
Definition resolve_step (root : node) (acc : os_error + list string) (c : string)
  : os_error + list string :=
  match acc with
  | inl e => inl e
  | inr stack =>
      match lookup_node root (rev stack) with
      | Some (Dir _ es) =>
          if (String.eqb c "" || String.eqb c ".")%bool then inr stack
          else if String.eqb c ".." then inr (tl stack)
          else match assoc c es with
               | Some _ => inr (c :: stack)
               | None => inl FileNotFoundError
               end
      | Some (File _) => inl NotADirectoryError
      | None => inl FileNotFoundError
      end
  end.

Definition resolve (w : world) (path : string) : os_error + node :=
  if String.eqb path "" then inl FileNotFoundError
  else
    let start := if startswith path chr_slash then [] else rev (fs_cwd w) in
    match fold_left (resolve_step (fs_root w)) (split path chr_slash) (inr start) with
    | inl e => inl e
    | inr stack =>
        match lookup_node (fs_root w) (rev stack) with
        | Some n => inr n
        | None => inl FileNotFoundError
        end
    end.

(** [os.listdir(path)], without effects: the names of all entries, files
    and directories alike, in enumeration order. *)
Definition listdir (w : world) (path : string) : os_error + list string :=
  match resolve w path with
  | inl e => inl e
  | inr (File _) => inl NotADirectoryError
  | inr (Dir false _) => inl PermissionError
  | inr (Dir true es) => inr (map fst es)
  end.

(** [os.walk(top)] with its defaults (top-down, [onerror=None], links not
    followed) below an already resolved node: a directory that cannot be
    scanned yields nothing, silently; children are walked in enumeration
    order with [top] extended by [os.path.join]. *)
Fixpoint walk_node (top : string) (n : node) : list (string * list string * list string) :=
  match n with
  | Dir true es =>
      let dirs := List.filter (fun e => is_dir (snd e)) es in
      let nondirs := List.filter (fun e => negb (is_dir (snd e))) es in
      (top, map fst dirs, map fst nondirs) ::
      flat_map (fun e =>
                  if is_dir (snd e)
                  then walk_node (os_path.join top (fst e)) (snd e)
                  else [])
               es
  | Dir false _ => []
  | File _ => []
  end.

Definition walk (w : world) (top : string) : list (string * list string * list string) :=
  match resolve w top with
  | inr n => walk_node top n
  | inl _ => []
  end.

(** [io.open(path, 'r', encoding='utf8')] followed by reading. *)
Definition open_read (w : world) (path : string) : exn + string :=
  match resolve w path with
  | inl e => inl (OSError e path)
  | inr (Dir _ _) => inl (OSError IsADirectoryError path)
  | inr (File Unreadable) => inl (OSError PermissionError path)
  | inr (File Undecodable) => inl UnicodeDecodeError
  | inr (File (Text s)) => inr s
  end.

End fs.

(** ** The effect monad: the world is threaded, exceptions short-circuit *)

Inductive outcome (A : Type) : Type :=
  | Return (a : A)
  | Raise (e : exn).
Arguments Return {A} a.
Arguments Raise {A} e.

Definition M (A : Type) : Type := world -> outcome A * world.

Definition ret {A} (a : A) : M A := fun w => (Return a, w).

Definition raise {A} (e : exn) : M A := fun w => (Raise e, w).

Definition bind {A B} (m : M A) (k : A -> M B) : M B :=
  fun w =>
    match m w with
    | (Return a, w') => k a w'
    | (Raise e, w') => (Raise e, w')
    end.

(** [try: body / except Exception as e: handler(e)]. *)
Definition try_except {A} (body : M A) (handler : exn -> M A) : M A :=
  fun w =>
    match body w with
    | (Return a, w') => (Return a, w')
    | (Raise e, w') => handler e w'
    end.

#[global] Instance M_ret : MRet M := @ret.
#[global] Instance M_bind : MBind M := fun A B k m => bind m k.

(** [for x in l: ys.append(f(x))], stopping at the first exception. *)
Fixpoint for_each {A B} (f : A -> M B) (l : list A) : M (list B) :=
  match l with
  | [] => ret []
  | x :: l' => y ← f x; ys ← for_each f l'; ret (y :: ys)
  end.

Definition emit (r : log_record) : M unit :=
  fun w => (Return tt, World (fs_root w) (fs_cwd w) (log w ++ [r])).

(** [d[k]] on a dict with string keys. *)
Definition getitem (d : gmap string string) (k : string) : M string :=
  match d !! k with
  | Some v => ret v
  | None => raise (KeyError k)
  end.

(** [row[i]] on a list. *)
Definition getitem_list (row : list string) (i : nat) : M string :=
  match nth_error row i with
  | Some v => ret v
  | None => raise IndexError
  end.

Definition os_listdir (path : string) : M (list string) :=
  fun w =>
    match fs.listdir w path with
    | inr names => (Return names, w)
    | inl e => (Raise (OSError e path), w)
    end.

Definition os_walk (top : string) : M (list (string * list string * list string)) :=
  fun w => (Return (fs.walk w top), w).

Definition io_open_read (path : string) : M string :=
  fun w =>
    match fs.open_read w path with
    | inr s => (Return s, w)
    | inl e => (Raise e, w)
    end.

(** ** Reading a text file: universal newlines and line iteration *)

Module io_text.
Import PyStr.

(** [newline=None]: CR LF and a lone CR are both read as LF. *)
Fixpoint translate_newlines (s : string) : string :=
  match s with
  | EmptyString => EmptyString
  | String a s' =>
      if Ascii.eqb a chr_cr then
        match s' with
        | String b s'' =>
            if Ascii.eqb b chr_lf then String chr_lf (translate_newlines s'')
            else String chr_lf (translate_newlines s')
        | EmptyString => String chr_lf EmptyString
        end
      else String a (translate_newlines s')
  end.

(** Iterating a text file: the lines, each with its LF, the last one
    possibly without. *)
Fixpoint split_lines (s : string) : list string :=
  match s with
  | EmptyString => []
  | String a s' =>
      if Ascii.eqb a chr_lf then String a EmptyString :: split_lines s'
      else match split_lines s' with
           | [] => [String a EmptyString]
           | l :: ls => String a l :: ls
           end
  end.

Definition lines (text : string) : list string :=
  split_lines (translate_newlines text).

(** [len(s)] in code points: the bytes that are not UTF-8 continuation
    bytes. *)
Fixpoint len (s : string) : Z :=
  match s with
  | EmptyString => 0%Z
  | String a s' =>
      let b := Z.of_N (N_of_ascii a) in
      ((if (Z.land b 192 =? 128)%Z then 0 else 1) + len s')%Z
  end.

End io_text.

(** ** [csv.reader(f, delimiter=',')] with the default (excel) dialect

    The dialect has quotechar [chr_quote], doublequote on, no escapechar,
    skipinitialspace off, strict off, QUOTE_MINIMAL; the states of the C
    parser that only an escapechar reaches are left out. *)

Module csv.
Import PyStr.

Inductive ParserState : Set :=
  | START_RECORD | START_FIELD | IN_FIELD
  | IN_QUOTED_FIELD | QUOTE_IN_QUOTED_FIELD | EAT_CRNL.

Record ReaderObj : Set := Reader {
  state : ParserState;
  fields : list string;
  field : string
}.

Definition field_limit : Z := 131072.

Definition set_state (self : ReaderObj) (st : ParserState) : ReaderObj :=
  Reader st (fields self) (field self).

Definition parse_reset : ReaderObj := Reader START_RECORD [] EmptyString.

Definition parse_save_field (self : ReaderObj) : ReaderObj :=
  Reader (state self) (fields self ++ [field self]) EmptyString.

(** The limit is compared with the code points read so far at every byte,
    so a field of exactly [field_limit] code points whose last character
    takes several bytes is refused here and accepted by the C parser; below
    the limit the two agree. *)
Definition parse_add_char (self : ReaderObj) (c : ascii) : csv_error + ReaderObj :=
  if (field_limit <=? io_text.len (field self))%Z then inl field_larger_than_limit
  else inr (Reader (state self) (fields self) (field self ++ String c EmptyString)).

Definition is_newline (c : ascii) : bool :=
  (Ascii.eqb c chr_lf || Ascii.eqb c chr_cr)%bool.

(** End of a record inside a line: save the field, then expect only
    newline characters ([EAT_CRNL]) or, at the end of the line, start the
    next record. *)
Definition end_of_record (self : ReaderObj) (c : option ascii) : csv_error + ReaderObj :=
  inr (set_state (parse_save_field self)
         (match c with None => START_RECORD | Some _ => EAT_CRNL end)).

Definition start_field (self : ReaderObj) (c : option ascii) : csv_error + ReaderObj :=
  match c with
  | None => end_of_record self c
  | Some a =>
      if is_newline a then end_of_record self c
      else if Ascii.eqb a chr_quote then inr (set_state self IN_QUOTED_FIELD)
      else if Ascii.eqb a chr_comma then inr (parse_save_field self)
      else match parse_add_char self a with
           | inl e => inl e
           | inr self' => inr (set_state self' IN_FIELD)
           end
  end.

(** [parse_process_char]; [None] is the end-of-line marker that the
    reader feeds after the last character of each line. *)
Definition parse_process_char (self : ReaderObj) (c : option ascii)
  : csv_error + ReaderObj :=
  match state self with
  | START_RECORD =>
      match c with
      | None => inr self
      | Some a =>
          if is_newline a then inr (set_state self EAT_CRNL)
          else start_field (set_state self START_FIELD) c
      end
  | START_FIELD => start_field self c
  | IN_FIELD =>
      match c with
      | None => end_of_record self c
      | Some a =>
          if is_newline a then end_of_record self c
          else if Ascii.eqb a chr_comma
          then inr (set_state (parse_save_field self) START_FIELD)
          else parse_add_char self a
      end
  | IN_QUOTED_FIELD =>
      match c with
      | None => inr self
      | Some a =>
          if Ascii.eqb a chr_quote then inr (set_state self QUOTE_IN_QUOTED_FIELD)
          else parse_add_char self a
      end
  | QUOTE_IN_QUOTED_FIELD =>
      match c with
      | None => end_of_record self c
      | Some a =>
          if Ascii.eqb a chr_quote then
            match parse_add_char self a with
            | inl e => inl e
            | inr self' => inr (set_state self' IN_QUOTED_FIELD)
            end
          else if Ascii.eqb a chr_comma
          then inr (set_state (parse_save_field self) START_FIELD)
          else if is_newline a then end_of_record self c
          else match parse_add_char self a with
               | inl e => inl e
               | inr self' => inr (set_state self' IN_FIELD)
               end
      end
  | EAT_CRNL =>
      match c with
      | None => inr (set_state self START_RECORD)
      | Some a =>
          if is_newline a then inr self
          else inl newline_in_unquoted_field
      end
  end.

(** One line of input: its characters, then the end-of-line marker. *)
Fixpoint process_line (self : ReaderObj) (line : string) : csv_error + ReaderObj :=
  match line with
  | EmptyString => parse_process_char self None
  | String c rest =>
      match parse_process_char self (Some c) with
      | inl e => inl e
      | inr self' => process_line self' rest
      end
  end.

(** Repeated [next(reader)]: the rows produced before the input ends or
    the parser raises, and the error if it did.  A record is complete when
    a line leaves the parser in [START_RECORD]; input that ends inside a
    quoted field still gives its row. *)
Fixpoint iter_records (self : ReaderObj) (lines : list string)
  : list (list string) * option csv_error :=
  match lines with
  | [] =>
      match state self with
      | IN_QUOTED_FIELD => ([fields (parse_save_field self)], None)
      | _ =>
          if String.eqb (field self) EmptyString
          then ([], None)
          else ([fields (parse_save_field self)], None)
      end
  | line :: rest =>
      match process_line self line with
      | inl e => ([], Some e)
      | inr self' =>
          match state self' with
          | START_RECORD =>
              let (rows, err) := iter_records parse_reset rest in
              (fields self' :: rows, err)
          | _ => iter_records self' rest
          end
      end
  end.

Definition reader (lines : list string) : list (list string) * option csv_error :=
  iter_records parse_reset lines.

End csv.

(** ** The plugin *)

(** The dicts built by [run]: a discovered playlist file, a song, and a
    playlist of the shared model. *)
Record PlaylistCandidate : Set := Candidate {
  cand_name : string;
  cand_path : string
}.

Record SongRecord : Set := Song {
  artist : string;
  title : string;
  album : string;
  isrc : string
}.

Record PlaylistEntry : Type := Entry {
  entry_name : string;
  entry_id : gmap string string;
  entry_songs : list SongRecord
}.

(** [**kwargs] as the host passes them; [run] reads all five and uses
    [component] only ([songs_dict] is rebound in the input branch). *)
Record Kwargs : Type := {
  database : gmap string string;
  global_settings : gmap string string;
  component : string;
  applet_id : string;
  songs_dict : list PlaylistEntry
}.

Definition supported_playlist_extensions : list string := [".csv"].

Module name_filter.

(** Modelled from the spec: [ultrasonics.tools.name_filter.filter_list] is
    not among the sources.  Section 4.3 gives its contract: it returns the
    subset of [names] matching [pattern] as a regular expression, and an
    empty pattern matches everything.  The regular-expression engine is the
    parameter [re_match pattern name]. *)
Definition filter_list (re_match : string -> string -> bool)
    (names : list string) (pattern : string) : list string :=
  if String.eqb pattern EmptyString then names
  else List.filter (re_match pattern) names.

End name_filter.

Section Plugin.
Import PyStr.

Variable re_match : string -> string -> bool.

(** Line 76: [settings_dict["dir"].rstrip("/").rstrip("\\")]. *)
Definition normalise_dir (dir : string) : string :=
  rstrip "\" (rstrip "/" dir).

(** Lines 87-90 and 96-99: the candidate of one directory entry. *)
Definition candidate (root item : string) : PlaylistCandidate :=
  {| cand_name := fst (os_path.splitext item);
     cand_path := os_path.join root item |}.

(** Lines 82-102, the [try] block and its handler.  Nothing can raise once
    the first candidate has been appended ([os.listdir] raises before the
    loop, [os.walk] swallows scan errors), so the handler sees the empty
    list. *)
Definition scan_directory (settings_dict : gmap string string) (path : string)
  : M (list PlaylistCandidate) :=
  try_except
    (recursive ← getitem settings_dict "recursive";
     if String.eqb recursive "Yes" then
       walked ← os_walk path;
       ret (flat_map (fun '(root, _, files) => map (candidate root) files) walked)
     else
       files ← os_listdir path;
       ret (map (candidate path) files))
    (fun e => emit (log_error e);; ret []).

(** Lines 105-106. *)
Definition has_supported_extension (item : PlaylistCandidate) : bool :=
  in_list (snd (os_path.splitext (cand_path item))) supported_playlist_extensions.

(** Lines 76-108: everything [run] does before it looks at [component]. *)
Definition discover (settings_dict : gmap string string) : M (list PlaylistCandidate) :=
  dir ← getitem settings_dict "dir";
  let path := normalise_dir dir in
  playlists ← scan_directory settings_dict path;
  let playlists := List.filter has_supported_extension playlists in
  emit (log_info (Found_playlists (length playlists)));;
  ret playlists.

(** Lines 137-141: one row to one song; each index may raise. *)
Definition read_song (songRow : list string) : M SongRecord :=
  a ← getitem_list songRow 0;
  t ← getitem_list songRow 1;
  al ← getitem_list songRow 2;
  i ← getitem_list songRow 3;
  ret {| artist := a; title := t; album := al; isrc := i |}.

(** Lines 125-147, the body of the loop over the playlists.  The reader is
    lazy: rows are consumed as they are produced, and a parser error
    surfaces only after the rows before it. *)
Definition read_playlist (playlist : PlaylistCandidate) : M PlaylistEntry :=
  text ← io_open_read (cand_path playlist);
  let (rows, err) := csv.reader (io_text.lines text) in
  songs ← for_each read_song rows;
  match err with
  | Some e => raise (csv_Error e)
  | None => ret {| entry_name := cand_name playlist;
                   entry_id := ∅;
                   entry_songs := songs |}
  end.

(** Lines 50-149.  A function body that ends without [return] gives
    [None]. *)
Definition run (settings_dict : gmap string string) (kwargs : Kwargs)
  : M (option (list PlaylistEntry)) :=
  let component := component kwargs in
  playlists ← discover settings_dict;
  if String.eqb component "inputs" then
    let filter_titles := map cand_name playlists in
    pattern ← getitem settings_dict "filter";
    let filter_titles := name_filter.filter_list re_match filter_titles pattern in
    emit (log_info (Match_filter (length filter_titles)));;
    let playlists :=
      List.filter (fun item => in_list (cand_name item) filter_titles) playlists in
    songs_dict ← for_each read_playlist playlists;
    ret (Some songs_dict)
  else ret None.

End Plugin.

(** ** Vocabulary of the properties *)

(** No path separator of either convention at the end of [s]. *)
Definition no_trailing_separator (s : string) : bool :=
  (negb (PyStr.endswith s PyStr.chr_slash)
   && negb (PyStr.endswith s PyStr.chr_backslash))%bool.

(** The file system is the same in both worlds (the log may differ). *)
Definition same_fs (w w' : world) : Prop :=
  fs_root w' = fs_root w /\ fs_cwd w' = fs_cwd w.

(** A computation that never changes the file system, whatever it returns
    or raises. *)
Definition preserves_fs {A} (m : M A) : Prop :=
  forall w, same_fs w (snd (m w)).

(** A computation that only reads: the whole world, log included, stays. *)
Definition read_only {A} (m : M A) : Prop :=
  forall w, snd (m w) = w.

Definition names_of (playlists : list PlaylistCandidate) : list string :=
  map cand_name playlists.

Definition entry_names (songs_dict : list PlaylistEntry) : list string :=
  map entry_name songs_dict.

(** The song of a row with at least four columns. *)
Definition song_of_row (songRow : list string) : SongRecord :=
  {| artist := nth 0 songRow EmptyString;
     title := nth 1 songRow EmptyString;
     album := nth 2 songRow EmptyString;
     isrc := nth 3 songRow EmptyString |}.

Definition short_row (songRow : list string) : bool :=
  (length songRow <? 4)%nat.

(** An entry name as file systems have them: no slash inside. *)
Definition valid_name (item : string) : bool :=
  negb (PyStr.contains item PyStr.chr_slash).

(** The extension test of lines 105-106, on an entry name. *)
Definition supported_name (item : string) : bool :=
  PyStr.in_list (snd (os_path.splitext item)) supported_playlist_extensions.

(** Every entry name below [n] is valid. *)
Fixpoint valid_tree (n : node) : bool :=
  match n with
  | File _ => true
  | Dir _ es => forallb (fun e => (valid_name (fst e) && valid_tree (snd e))%bool) es
  end.


(** N of the discovery property, non-recursive: the regular files with a
    supported extension directly in the directory. *)
Definition supported_files_here (es : list (string * node)) : nat :=
  length (List.filter (fun e => (negb (is_dir (snd e)) && supported_name (fst e))%bool) es).

(** M: the entries directly in the directory without a supported
    extension. *)
Definition unsupported_entries_here (es : list (string * node)) : nat :=
  length (List.filter (fun e => negb (supported_name (fst e))) es).



(** ** Worlds and settings of the closed examples *)

Module Examples.

Definition nl : string := String PyStr.chr_lf EmptyString.
Definition crlf : string := String PyStr.chr_cr nl.

(** The closed examples all use the empty pattern, which never consults
    the regular-expression engine. *)
Definition no_regex : string -> string -> bool := fun _ _ => false.

Definition settings (dir recursive filter : string) : gmap string string :=
  <["dir" := dir]> (<["recursive" := recursive]> (<["filter" := filter]> ∅)).

Definition kwargs (role : string) (songs : list PlaylistEntry) : Kwargs :=
  {| database := ∅; global_settings := ∅; component := role;
     applet_id := "applet"; songs_dict := songs |}.

(** A root directory holding the single directory [pl] with the given
    entries. *)
Definition world_with_pl (entries : list (string * node)) : world :=
  World (Dir true [("pl", Dir true entries)]) [] [].

Definition queen : SongRecord :=
  Song "Queen" "Bohemian Rhapsody" "A Night at the Opera" "GBUM71029604".
Definition abba : SongRecord :=
  Song "ABBA" "Dancing Queen" "Arrival" "SEAB89800001".

Definition row (s : SongRecord) : string :=
  artist s ++ "," ++ title s ++ "," ++ album s ++ "," ++ isrc s.

(** [Top.csv], with its two rows ended by [eol]. *)
Definition top_csv (eol : string) : string :=
  row queen ++ eol ++ row abba ++ eol.

(** The same two rows with no line end after the last one. *)
Definition top_csv_unterminated : string :=
  row queen ++ nl ++ row abba.

Definition top_world (text : string) : world :=
  world_with_pl [("Top.csv", File (Text text))].

Definition song_a : SongRecord := Song "A" "T" "Al" "ISRC1".
Definition song_b : SongRecord := Song "B" "T2" "Al2" "ISRC2".

(** A playlist whose second row has one column only. *)
Definition malformed_csv : string :=
  row song_a ++ nl ++ "badrow" ++ nl ++ row song_b ++ nl.

Definition malformed_world : world :=
  world_with_pl [("Mix.csv", File (Text malformed_csv))].

(** A directory with one playlist that cannot be opened and one that
    can. *)
Definition unreadable_world : world :=
  world_with_pl [("Locked.csv", File Unreadable);
                 ("Top.csv", File (Text (top_csv nl)))].

(** A tree with playlists at three depths and entries without a supported
    extension. *)
Definition deep_entries : list (string * node) :=
  [("Top.csv", File (Text (top_csv nl)));
   ("notes.txt", File (Text "x"));
   ("rock", Dir true
      [("Queen.csv", File (Text (row queen ++ nl)));
       ("cover.jpg", File Unreadable);
       ("live", Dir true [("Wembley.csv", File (Text (row queen ++ nl)))])]);
   (".csv", File (Text "hidden"))].

Definition deep_world : world := world_with_pl deep_entries.

(** A stand-in for the regular-expression engine on literal patterns:
    [re.match] of a literal succeeds on the names that start with it. *)
Definition literal_match : string -> string -> bool := String.prefix.

(** The directory [/pl], scanned without and with recursion, no filter. *)
Definition flat : gmap string string := settings "/pl" "No" "".
Definition deep : gmap string string := settings "/pl" "Yes" "".

(** The same recursive scan, keeping the names that match [Q]. *)
Definition deep_q : gmap string string := settings "/pl" "Yes" "Q".

Definition as_input : Kwargs := kwargs "inputs" [].

Definition s1 : SongRecord := Song "a1" "t1" "al1" "i1".
Definition s2 : SongRecord := Song "a2" "t2" "al2" "i2".
Definition s3 : SongRecord := Song "a3" "t3" "al3" "i3".

(** The output role is handed one playlist of three songs. *)
Definition mix : PlaylistEntry := Entry "Mix" ∅ [s1; s2; s3].
Definition as_output : Kwargs := kwargs "outputs" [mix].

(** The world after that output run on an empty [/pl]. *)
Definition after_output : world :=
  snd (run no_regex flat as_output (world_with_pl [])).

End Examples.

(** ** The settings form *)

(** The values the form dicts hold. *)
Inductive py_value : Set :=
  | VStr (s : string)
  | VBool (b : bool)
  | VList (l : list string).

(** [sep.join(l)]. *)
Fixpoint str_join (sep : string) (l : list string) : string :=
  match l with
  | [] => EmptyString
  | [x] => x
  | x :: rest => x +:+ sep +:+ str_join sep rest
  end.

(** Lines 151-203.  [builder] reads [kwargs["component"]] only. *)
Definition builder (component : string) : list (gmap string py_value) :=
  let settings_dict :=
    [ list_to_map
        [("type", VStr "string");
         ("value", VStr ("⚠️ Only " +:+ str_join ", " supported_playlist_extensions
                         +:+ " extensions are supported for playlists, and .mp3, m4a extensions are supported for audio files. Unsupported files will be ignored."))];
      list_to_map
        [("type", VStr "text");
         ("label", VStr "Directory");
         ("name", VStr "dir");
         ("value", VStr "/mnt/music library/playlists");
         ("required", VBool true)];
      list_to_map
        [("type", VStr "string");
         ("value", VStr "Enabling recursive mode will search all subfolders for more playlists.")];
      list_to_map
        [("type", VStr "radio");
         ("label", VStr "Recursive");
         ("name", VStr "recursive");
         ("id", VStr "recursive");
         ("options", VList ["Yes"; "No"]);
         ("required", VBool true)] ] in
  if String.eqb component "inputs" then
    settings_dict ++
    [ list_to_map
        [("type", VStr "string");
         ("value", VStr "You can use regex style filters to only select certain playlists. For example, 'disco' would sync playlists 'Disco 2010' and 'nu_disco', or '2020$' would only sync playlists which ended with the value '2020'.")];
      list_to_map
        [("type", VStr "string");
         ("value", VStr "Leave it blank to sync everything 🤓.")];
      list_to_map
        [("type", VStr "text");
         ("label", VStr "Filter");
         ("name", VStr "filter");
         ("value", VStr "")] ]
  else settings_dict.

(** The settings keys a form asks for: the [name] of each item that has
    one. *)
Definition field_name (item : gmap string py_value) : option string :=
  match item !! "name" with
  | Some (VStr n) => Some n
  | _ => None
  end.

Definition field_names (form : list (gmap string py_value)) : list string :=
  omap field_name form.

(** ** More vocabulary *)

(** What the [try] block of lines 82-102 gives on a world: the candidates
    and the records its handler logs. *)
Definition scan_result (settings_dict : gmap string string) (path : string) (w : world)
  : list PlaylistCandidate * list log_record :=
  match settings_dict !! "recursive" with
  | None => ([], [log_error (KeyError "recursive")])
  | Some recursive =>
      if String.eqb recursive "Yes" then
        (flat_map (fun '(root, _, files) => map (candidate root) files)
           (fs.walk w path), [])
      else
        match fs.listdir w path with
        | inr files => (map (candidate path) files, [])
        | inl e => ([], [log_error (OSError e path)])
        end
  end.

(** The world with more log records. *)
Definition logged (w : world) (records : list log_record) : world :=
  World (fs_root w) (fs_cwd w) (log w ++ records).

(** The candidates lines 120-121 keep. *)
Definition kept (re_match : string -> string -> bool) (pattern : string)
    (playlists : list PlaylistCandidate) : list PlaylistCandidate :=
  List.filter
    (fun item =>
       PyStr.in_list (cand_name item)
         (name_filter.filter_list re_match (names_of playlists) pattern))
    playlists.

(** A computation whose result depends on the file system only, and that
    keeps equal file systems equal. *)
Definition respects_fs {A} (m : M A) : Prop :=
  forall w w', same_fs w w' ->
    fst (m w') = fst (m w) /\ same_fs (snd (m w)) (snd (m w')).

(** A computation that only appends to the log. *)
Definition extends_log {A} (m : M A) : Prop :=
  forall w, exists records, log (snd (m w)) = log w ++ records.

Definition is_KeyError (e : exn) : bool :=
  match e with KeyError _ => true | _ => false end.

Definition logs_KeyError (r : log_record) : bool :=
  match r with log_error e => is_KeyError e | log_info _ => false end.

(** A character that the parser takes as part of an unquoted field. *)
Definition plain_char (c : ascii) : bool :=
  negb (Ascii.eqb c PyStr.chr_comma || Ascii.eqb c PyStr.chr_quote
        || Ascii.eqb c PyStr.chr_lf || Ascii.eqb c PyStr.chr_cr).

Fixpoint plain (s : string) : bool :=
  match s with
  | EmptyString => true
  | String c s' => plain_char c && plain s'
  end.

(** A field of plain characters, shorter than the field limit. *)
Definition plain_field (s : string) : bool :=
  plain s && (io_text.len s <? csv.field_limit)%Z.

(** One line of a playlist file: the fields separated by commas, ended by a
    line feed. *)
Definition csv_line (fields : list string) : string :=
  str_join "," fields +:+ String PyStr.chr_lf "".

Fixpoint csv_text (rows : list (list string)) : string :=
  match rows with
  | [] => EmptyString
  | r :: rows' => csv_line r +:+ csv_text rows'
  end.

(** The on-disk row of a song: artist, title, album, isrc. *)
Definition song_fields (s : SongRecord) : list string :=
  [artist s; title s; album s; isrc s].

Definition plain_song (s : SongRecord) : bool :=
  forallb plain_field (song_fields s).

(** A row that a line of plain fields can stand for: at least one field,
    and not the single empty field (an empty line is a row without
    fields). *)
Definition plain_row (row : list string) : bool :=
  match row with
  | [] => false
  | [EmptyString] => false
  | _ => forallb plain_field row
  end.

(** A path without the NUL character.  The calls of [os] and [io] refuse
    a path that has one with [ValueError], which is no [OSError]; such
    paths are outside the file system model. *)
Definition no_nul (path : string) : bool :=
  negb (PyStr.contains path "000"%char).

(** The directory reached from [n] through the nested directory entries
    [dirs] has an entry called [file]. *)
Fixpoint has_entry (n : node) (dirs : list string) (file : string) {struct dirs} : bool :=
  match n with
  | File _ => false
  | Dir _ es =>
      match dirs with
      | [] => existsb (fun e => String.eqb (fst e) file) es
      | d :: ds =>
          existsb (fun e => (String.eqb (fst e) d && has_entry (snd e) ds file)%bool) es
      end
  end.

(** [/pl] holds the playlist [a.csv] and a directory that is named like a
    playlist, [x.csv], with the playlist [b.csv] inside. *)
Definition directory_named_like_a_playlist : list (string * node) :=
  [("a.csv", File (Text "a,b,c,d"));
   ("x.csv", Dir true [("b.csv", File (Text "e,f,g,h"))])].

(** The root directory itself holds the playlist [a.csv]. *)
Definition root_world : world :=
  World (Dir true [("a.csv", File (Text "a,b,c,d"))]) [] [].

(** [/pl] exists but may not be listed. *)
Definition locked_world : world :=
  World (Dir true [("pl", Dir false [("Top.csv", File (Text "a,b,c,d"))])]) [] [].

(** * Properties *)

(** ** The monad *)

Lemma bind_return {A B} (m : M A) (k : A -> M B) w a w' :
  m w = (Return a, w') -> bind m k w = k a w'.
Proof. unfold bind. intros ->. reflexivity. Qed.

Lemma bind_raise {A B} (m : M A) (k : A -> M B) w e w' :
  m w = (Raise e, w') -> bind m k w = (Raise e, w').
Proof. unfold bind. intros ->. reflexivity. Qed.

Lemma bind_inv {A B} (m : M A) (k : A -> M B) w b w' :
  bind m k w = (Return b, w') ->
  exists a w1, m w = (Return a, w1) /\ k a w1 = (Return b, w').
Proof.
  unfold bind. destruct (m w) as [[a|e] w1]; intros H.
  - eauto.
  - discriminate.
Qed.

(** ** Frame: nothing in [run] writes to the file system *)

Lemma same_fs_refl w : same_fs w w.
Proof. split; reflexivity. Qed.

Lemma same_fs_trans w1 w2 w3 : same_fs w1 w2 -> same_fs w2 w3 -> same_fs w1 w3.
Proof. intros [H1 H2] [H3 H4]. split; congruence. Qed.

Lemma preserves_ret {A} (a : A) : preserves_fs (ret a).
Proof. intros w. apply same_fs_refl. Qed.

Lemma preserves_raise {A} (e : exn) : preserves_fs (@raise A e).
Proof. intros w. apply same_fs_refl. Qed.

Lemma preserves_bind {A B} (m : M A) (k : A -> M B) :
  preserves_fs m -> (forall a, preserves_fs (k a)) -> preserves_fs (bind m k).
Proof.
  intros Hm Hk w. unfold bind. specialize (Hm w).
  destruct (m w) as [[a|e] w1]; simpl in *.
  - eapply same_fs_trans; [exact Hm | apply Hk].
  - exact Hm.
Qed.

Lemma preserves_try {A} (body : M A) (handler : exn -> M A) :
  preserves_fs body -> (forall e, preserves_fs (handler e)) ->
  preserves_fs (try_except body handler).
Proof.
  intros Hm Hk w. unfold try_except. specialize (Hm w).
  destruct (body w) as [[a|e] w1]; simpl in *.
  - exact Hm.
  - eapply same_fs_trans; [exact Hm | apply Hk].
Qed.

Lemma preserves_for_each {A B} (f : A -> M B) (l : list A) :
  (forall x, preserves_fs (f x)) -> preserves_fs (for_each f l).
Proof.
  intros Hf. induction l as [|x l IH]; simpl.
  - apply preserves_ret.
  - apply preserves_bind; [apply Hf | intros y].
    apply preserves_bind; [exact IH | intros ys]. apply preserves_ret.
Qed.

Lemma preserves_emit r : preserves_fs (emit r).
Proof. intros w. split; reflexivity. Qed.

Lemma preserves_getitem d k : preserves_fs (getitem d k).
Proof. unfold getitem. destruct (d !! k); [apply preserves_ret | apply preserves_raise]. Qed.

Lemma preserves_getitem_list row i : preserves_fs (getitem_list row i).
Proof.
  unfold getitem_list.
  destruct (nth_error row i); [apply preserves_ret | apply preserves_raise].
Qed.

Lemma preserves_os_listdir path : preserves_fs (os_listdir path).
Proof. intros w. unfold os_listdir. destruct (fs.listdir w path); apply same_fs_refl. Qed.

Lemma preserves_os_walk top : preserves_fs (os_walk top).
Proof. intros w. apply same_fs_refl. Qed.

Lemma preserves_io_open_read path : preserves_fs (io_open_read path).
Proof. intros w. unfold io_open_read. destruct (fs.open_read w path); apply same_fs_refl. Qed.

Ltac frame_step :=
  first
    [ apply preserves_ret | apply preserves_raise | apply preserves_emit
    | apply preserves_getitem | apply preserves_getitem_list
    | apply preserves_os_listdir | apply preserves_os_walk
    | apply preserves_io_open_read
    | apply preserves_bind; [| intros ?]
    | apply preserves_try; [| intros ?]
    | apply preserves_for_each; intros ?
    | match goal with
      | |- preserves_fs (if ?b then _ else _) => destruct b
      | |- preserves_fs (match ?x with _ => _ end) => destruct x
      end ].

Ltac frame := unfold mbind, M_bind; repeat frame_step.

Lemma preserves_scan_directory settings_dict path :
  preserves_fs (scan_directory settings_dict path).
Proof. unfold scan_directory. frame. Qed.

Lemma preserves_discover settings_dict : preserves_fs (discover settings_dict).
Proof. unfold discover. frame. Qed.

Lemma preserves_read_song songRow : preserves_fs (read_song songRow).
Proof. unfold read_song. frame. Qed.

Lemma preserves_read_playlist playlist : preserves_fs (read_playlist playlist).
Proof. unfold read_playlist. frame. Qed.

Lemma preserves_run re_match settings_dict kwargs :
  preserves_fs (run re_match settings_dict kwargs).
Proof. unfold run. frame. Qed.

(** ** Discovery always completes once the directory setting is there *)

Lemma scan_directory_returns settings_dict path w :
  exists playlists w', scan_directory settings_dict path w = (Return playlists, w').
Proof.
  unfold scan_directory, try_except.
  match goal with |- context [match ?b w with _ => _ end] => destruct (b w) as [[l|e] w1] end.
  - eauto.
  - unfold mbind, M_bind, bind, emit, ret. simpl. eauto.
Qed.

Lemma discover_returns settings_dict dir w :
  settings_dict !! "dir" = Some dir ->
  exists playlists w', discover settings_dict w = (Return playlists, w').
Proof.
  intros Hdir. unfold discover, getitem, mbind, M_bind. rewrite Hdir.
  unfold bind at 1. unfold ret at 1.
  destruct (scan_directory_returns settings_dict (normalise_dir dir) w) as (l & w1 & Hscan).
  unfold bind at 1. rewrite Hscan.
  unfold bind, emit, ret. simpl. eauto.
Qed.

(** C10: with a component other than inputs (outputs in particular), [run]
    returns [None] after discovery and the file system is what it was: no
    file is written, backed up or created, and the supplied songs are not
    reconciled. *)
Theorem run_other_component_returns_None_and_writes_nothing :
  forall re_match settings_dict kwargs w dir,
    settings_dict !! "dir" = Some dir ->
    component kwargs <> "inputs" ->
    exists w', run re_match settings_dict kwargs w = (Return None, w')
               /\ same_fs w w'.
Proof.
  intros re_match settings_dict kwargs w dir Hdir Hrole.
  pose proof (preserves_run re_match settings_dict kwargs w) as Hfs.
  destruct (discover_returns settings_dict dir w Hdir) as (l & w1 & Hd).
  revert Hfs. unfold run, mbind, M_bind. rewrite (bind_return _ _ _ _ _ Hd).
  apply String.eqb_neq in Hrole. rewrite Hrole.
  unfold ret. simpl. intros Hfs. exists w1. split; [reflexivity | exact Hfs].
Qed.

Lemma run_other_component_witness :
  exists w', run Examples.no_regex Examples.flat
               Examples.as_output
               (Examples.top_world (Examples.top_csv Examples.nl))
             = (Return None, w')
             /\ same_fs (Examples.top_world (Examples.top_csv Examples.nl)) w'.
Proof.
  apply (run_other_component_returns_None_and_writes_nothing
           Examples.no_regex Examples.flat
           Examples.as_output
           (Examples.top_world (Examples.top_csv Examples.nl)) "/pl").
  - vm_compute. reflexivity.
  - vm_compute. discriminate.
Defined.

(** ** Closed scenarios *)

(** C1: the directory [/pl] holds the single file [Top.csv] with the two
    rows for Queen and ABBA; with recursive No and an empty filter the input
    role returns exactly one entry, named Top, whose songs are the two rows
    in file order with artist, title, album and isrc taken from columns 0 to
    3.  The rows may end in LF or CR LF, and the last may lack its line
    end. *)
Theorem run_inputs_top_csv :
  forall re_match text,
    In text [Examples.top_csv Examples.nl; Examples.top_csv Examples.crlf;
             Examples.top_csv_unterminated] ->
    fst (run re_match Examples.flat Examples.as_input
           (Examples.top_world text))
    = Return (Some [Entry "Top" ∅ [Examples.queen; Examples.abba]]).
Proof.
  intros re_match text [<- | [<- | [<- | []]]]; vm_compute; reflexivity.
Qed.

Lemma run_inputs_top_csv_witness :
  fst (run Examples.no_regex Examples.flat
         Examples.as_input
         (Examples.top_world (Examples.top_csv Examples.nl)))
  = Return (Some [Entry "Top" ∅ [Examples.queen; Examples.abba]]).
Proof.
  apply (run_inputs_top_csv Examples.no_regex (Examples.top_csv Examples.nl)).
  simpl. left. reflexivity.
Defined.

(** ** String lemmas *)

Lemma append_cons a (s t : string) : String a s +:+ t = String a (s +:+ t).
Proof. reflexivity. Qed.

Lemma append_nil_l (s : string) : "" +:+ s = s.
Proof. reflexivity. Qed.

Lemma append_nil_r (s : string) : s +:+ "" = s.
Proof. induction s as [|a s IH]; [reflexivity | rewrite append_cons; f_equal; exact IH]. Qed.

Lemma append_assoc (s t u : string) : (s +:+ t) +:+ u = s +:+ (t +:+ u).
Proof.
  induction s as [|a s IH]; [reflexivity | rewrite !append_cons; f_equal; exact IH].
Qed.

Lemma in_list_In x l : PyStr.in_list x l = true <-> In x l.
Proof.
  unfold PyStr.in_list. rewrite existsb_exists. split.
  - intros (y & Hy & Heq). apply String.eqb_eq in Heq. now subst.
  - intros H. exists x. split; [exact H | apply String.eqb_refl].
Qed.

Lemma last_char_some a s : exists c, PyStr.last_char (String a s) = Some c.
Proof.
  revert a. induction s as [|b s IH]; intros a.
  - exists a. reflexivity.
  - destruct (IH b) as [c Hc]. exists c. exact Hc.
Qed.

Lemma last_char_cons a s :
  PyStr.last_char (String a s) =
  match PyStr.last_char s with Some b => Some b | None => Some a end.
Proof.
  destruct s as [|b s]; [reflexivity|].
  change (PyStr.last_char (String a (String b s))) with (PyStr.last_char (String b s)).
  destruct (last_char_some b s) as [c ->]. reflexivity.
Qed.

(** What [rstrip] removes is a run of the stripped characters. *)
Lemma rstrip_decompose chars s :
  exists t, s = PyStr.rstrip chars s +:+ t /\ PyStr.all_in chars t = true.
Proof.
  induction s as [|a s (t & Hs & Ht)]; simpl.
  - exists "". split; reflexivity.
  - destruct (PyStr.rstrip chars s) as [|b r] eqn:E.
    + rewrite append_nil_l in Hs. subst t.
      destruct (PyStr.in_chars a chars) eqn:Ea.
      * exists (String a s). simpl. rewrite Ea, Ht. split; reflexivity.
      * exists s. split; [reflexivity | exact Ht].
    + exists t. rewrite append_cons, <- Hs. split; [reflexivity | exact Ht].
Qed.

(** What [rstrip] leaves does not end in a stripped character. *)
Lemma rstrip_last chars s a :
  PyStr.last_char (PyStr.rstrip chars s) = Some a -> PyStr.in_chars a chars = false.
Proof.
  induction s as [|b s IH]; simpl; [discriminate|].
  destruct (PyStr.rstrip chars s) as [|c r] eqn:E.
  - destruct (PyStr.in_chars b chars) eqn:Eb; simpl; [discriminate|].
    intros [= <-]. exact Eb.
  - rewrite last_char_cons. destruct (last_char_some c r) as [d Hd].
    rewrite Hd. intros [= <-]. apply IH. exact Hd.
Qed.

Lemma rstrip_not_endswith c s :
  PyStr.endswith (PyStr.rstrip (String c "") s) c = false.
Proof.
  unfold PyStr.endswith.
  destruct (PyStr.last_char (PyStr.rstrip (String c "") s)) as [a|] eqn:E; [|reflexivity].
  apply rstrip_last in E. simpl in E. now rewrite orb_false_r in E.
Qed.

(** ** Path normalisation *)

Lemma normalise_dir_shape dir :
  exists backslashes slashes,
    dir = normalise_dir dir +:+ backslashes +:+ slashes
    /\ PyStr.all_in "\" backslashes = true
    /\ PyStr.all_in "/" slashes = true
    /\ PyStr.endswith (normalise_dir dir) PyStr.chr_backslash = false
    /\ (backslashes = "" -> PyStr.endswith (normalise_dir dir) PyStr.chr_slash = false).
Proof.
  unfold normalise_dir.
  destruct (rstrip_decompose "/" dir) as (sl & Hdir & Hsl).
  destruct (rstrip_decompose "\" (PyStr.rstrip "/" dir)) as (bs & Hx & Hbs).
  exists bs, sl. repeat split.
  - rewrite <- append_assoc, <- Hx. exact Hdir.
  - exact Hbs.
  - exact Hsl.
  - apply rstrip_not_endswith.
  - intros ->. rewrite append_nil_r in Hx. rewrite <- Hx.
    apply rstrip_not_endswith.
Qed.

Lemma rstrip_all chars t : PyStr.all_in chars t = true -> PyStr.rstrip chars t = "".
Proof.
  induction t as [|a t IH]; simpl; [reflexivity|].
  intros H. apply andb_true_iff in H as [Ha Ht]. now rewrite (IH Ht), Ha.
Qed.

Lemma rstrip_app_all chars s t :
  PyStr.all_in chars t = true -> PyStr.rstrip chars (s +:+ t) = PyStr.rstrip chars s.
Proof.
  intros Ht. induction s as [|a s IH].
  - rewrite append_nil_l. now apply rstrip_all.
  - rewrite append_cons. simpl. now rewrite IH.
Qed.

Lemma rstrip_id chars s :
  (forall a, PyStr.last_char s = Some a -> PyStr.in_chars a chars = false) ->
  PyStr.rstrip chars s = s.
Proof.
  induction s as [|a s IH]; [reflexivity|]. intros H. simpl.
  destruct s as [|b s].
  - simpl. now rewrite (H a eq_refl).
  - rewrite IH; [reflexivity|]. intros c Hc. apply H. exact Hc.
Qed.

Lemma last_char_app s t :
  PyStr.last_char (s +:+ t) =
  match PyStr.last_char t with Some c => Some c | None => PyStr.last_char s end.
Proof.
  induction s as [|a s IH].
  - rewrite append_nil_l. now destruct (PyStr.last_char t).
  - rewrite append_cons, !last_char_cons, IH.
    destruct (PyStr.last_char t); [reflexivity|].
    reflexivity.
Qed.

Lemma all_in_last chars t c :
  PyStr.all_in chars t = true -> PyStr.last_char t = Some c -> PyStr.in_chars c chars = true.
Proof.
  induction t as [|a t IH]; [discriminate|].
  simpl PyStr.all_in. intros H. apply andb_true_iff in H as [Ha Ht].
  rewrite last_char_cons. destruct (PyStr.last_char t) as [d|] eqn:E.
  - intros [= <-]. now apply IH.
  - intros [= <-]. exact Ha.
Qed.

(** C9, as amended: normalisation strips the trailing forward slashes and
    then the trailing back-slashes.  A directory string is a base [p], then
    back-slashes, then forward slashes, where [p] does not end in a
    back-slash and, when no back-slash follows it, not in a forward slash
    either; the base path used for the joins is [p].  There is no error
    case. *)
Theorem normalise_dir_strips_slashes_then_backslashes :
  forall p backslashes slashes,
    PyStr.all_in "\" backslashes = true ->
    PyStr.all_in "/" slashes = true ->
    PyStr.endswith p PyStr.chr_backslash = false ->
    (backslashes = "" -> PyStr.endswith p PyStr.chr_slash = false) ->
    normalise_dir (p +:+ backslashes +:+ slashes) = p.
Proof.
  intros p bs sl Hbs Hsl Hp Hp'. unfold normalise_dir.
  rewrite <- append_assoc, (rstrip_app_all "/" _ sl Hsl).
  rewrite (rstrip_id "/" (p +:+ bs)).
  - rewrite (rstrip_app_all "\" p bs Hbs). apply rstrip_id.
    intros a Ha. unfold PyStr.endswith in Hp. rewrite Ha in Hp.
    simpl. rewrite orb_false_r. exact Hp.
  - intros a. rewrite last_char_app.
    destruct (PyStr.last_char bs) as [c|] eqn:E.
    + intros [= <-]. pose proof (all_in_last _ _ _ Hbs E) as Hc.
      simpl in Hc |- *. rewrite orb_false_r in Hc |- *.
      apply Ascii.eqb_eq in Hc. subst c. reflexivity.
    + intros Ha. destruct bs as [|b bs]; [|destruct (last_char_some b bs); congruence].
      specialize (Hp' eq_refl). unfold PyStr.endswith in Hp'. rewrite Ha in Hp'.
      simpl. rewrite orb_false_r. exact Hp'.
Qed.

Lemma normalise_dir_strips_witness :
  normalise_dir ("/mnt/music" +:+ "\\" +:+ "//") = "/mnt/music"
  /\ normalise_dir ("/mnt/music/" +:+ "\" +:+ "") = "/mnt/music/".
Proof.
  split.
  - apply (normalise_dir_strips_slashes_then_backslashes "/mnt/music" "\\" "//").
    + reflexivity.
    + reflexivity.
    + reflexivity.
    + intros H. discriminate H.
  - apply (normalise_dir_strips_slashes_then_backslashes "/mnt/music/" "\" "").
    + reflexivity.
    + reflexivity.
    + reflexivity.
    + intros H. discriminate H.
Defined.

(** C9 as stated fails: a forward slash directly before trailing
    back-slashes survives, so the base path still ends in a separator. *)
Lemma normalise_dir_keeps_slash_before_backslashes :
  normalise_dir "/mnt/music/\" = "/mnt/music/"
  /\ no_trailing_separator (normalise_dir "/mnt/music/\") = false.
Proof. split; reflexivity. Qed.

(** ** The directory cannot be listed *)

Lemma listdir_error_walk_empty w path e :
  fs.listdir w path = inl e -> fs.walk w path = [].
Proof.
  unfold fs.listdir, fs.walk. destruct (fs.resolve w path) as [e'|[c|[|] es]]; try reflexivity.
  discriminate.
Qed.

(** X11: non-recursive mode, directory that cannot be listed: [os.listdir]
    raises, the handler logs the error once, under the normalised path, and
    the candidate list is empty. *)
Lemma discover_unlistable_flat settings_dict dir recursive w e :
  settings_dict !! "dir" = Some dir ->
  settings_dict !! "recursive" = Some recursive ->
  recursive <> "Yes" ->
  fs.listdir w (normalise_dir dir) = inl e ->
  discover settings_dict w =
    (Return [],
     World (fs_root w) (fs_cwd w)
       (log w ++ [log_error (OSError e (normalise_dir dir))]
              ++ [log_info (Found_playlists 0)])).
Proof.
  intros Hdir Hrec Hno Hls. apply String.eqb_neq in Hno.
  unfold discover, scan_directory, getitem, mbind, M_bind, bind, try_except, os_listdir.
  rewrite Hdir, Hrec. unfold ret at 1 2. rewrite Hno, Hls.
  unfold emit, ret. simpl. now rewrite <- app_assoc.
Qed.

(** Recursive mode: [os.walk] swallows the scan error, so the handler never
    runs; the candidate list is empty and no error reaches the log. *)
Lemma discover_unlistable_recursive settings_dict dir w e :
  settings_dict !! "dir" = Some dir ->
  settings_dict !! "recursive" = Some "Yes" ->
  fs.listdir w (normalise_dir dir) = inl e ->
  discover settings_dict w =
    (Return [],
     World (fs_root w) (fs_cwd w) (log w ++ [log_info (Found_playlists 0)])).
Proof.
  intros Hdir Hrec Hls.
  unfold discover, scan_directory, getitem, mbind, M_bind, bind, try_except, os_walk.
  rewrite Hdir, Hrec. unfold ret at 1 2. cbn beta iota.
  change ("Yes" =? "Yes")%string with true. cbn beta iota.
  rewrite (listdir_error_walk_empty _ _ _ Hls).
  unfold emit, ret. simpl. reflexivity.
Qed.

(** C5 at a missing directory, both modes side by side: the run completes
    with no playlists either way, but only the non-recursive scan logs the
    error. *)
Theorem run_missing_directory :
  run Examples.no_regex (Examples.settings "/missing" "Yes" "")
      Examples.as_input (Examples.world_with_pl [])
  = (Return (Some []),
     World (Dir true [("pl", Dir true [])]) []
       [log_info (Found_playlists 0); log_info (Match_filter 0)])
  /\
  run Examples.no_regex (Examples.settings "/missing" "No" "")
      Examples.as_input (Examples.world_with_pl [])
  = (Return (Some []),
     World (Dir true [("pl", Dir true [])]) []
       [log_error (OSError FileNotFoundError "/missing");
        log_info (Found_playlists 0); log_info (Match_filter 0)]).
Proof. split; vm_compute; reflexivity. Qed.

(** C3 at a playlist of three songs: the output role writes no file, so
    there is nothing to read back and the input role returns no playlist. *)
Theorem run_outputs_then_inputs_reads_nothing_back :
  fst (run Examples.no_regex Examples.flat Examples.as_output (Examples.world_with_pl []))
  = Return None
  /\ fs_root Examples.after_output = fs_root (Examples.world_with_pl [])
  /\ fs.open_read Examples.after_output "/pl/Mix.csv"
     = inl (OSError FileNotFoundError "/pl/Mix.csv")
  /\ fst (run Examples.no_regex Examples.flat Examples.as_input Examples.after_output)
     = Return (Some []).
Proof. vm_compute. repeat split; reflexivity. Qed.

(** ** The extension filter *)

Lemma take_drop n (s : string) : PyStr.take n s +:+ PyStr.drop n s = s.
Proof.
  revert s. induction n as [|n IH]; intros [|a s]; try reflexivity.
  simpl. rewrite append_cons. f_equal. apply IH.
Qed.

Lemma splitext_app p :
  fst (os_path.splitext p) +:+ snd (os_path.splitext p) = p.
Proof.
  unfold os_path.splitext.
  destruct (_ <? _)%Z; [|apply append_nil_r].
  destruct (os_path.only_dots_between _ _ _); [apply append_nil_r|].
  apply take_drop.
Qed.

Lemma discover_inv settings_dict w playlists w' :
  discover settings_dict w = (Return playlists, w') ->
  exists dir scanned w1,
    settings_dict !! "dir" = Some dir
    /\ scan_directory settings_dict (normalise_dir dir) w = (Return scanned, w1)
    /\ playlists = List.filter has_supported_extension scanned
    /\ w' = World (fs_root w1) (fs_cwd w1)
              (log w1 ++ [log_info (Found_playlists (length playlists))]).
Proof.
  unfold discover, getitem, mbind, M_bind.
  destruct (settings_dict !! "dir") as [dir|]; [|discriminate].
  unfold bind at 1. unfold ret at 1. intros H.
  apply bind_inv in H as (scanned & w1 & Hscan & H).
  unfold bind, emit, ret in H. simpl in H. injection H as <- <-.
  exists dir, scanned, w1. auto.
Qed.

(** C8: every candidate that survives the extension filter has a path whose
    extension, as [os.path.splitext] sees it, is one of the supported ones,
    and the path ends in it.  Discovery is the common prefix of both roles
    and the statement covers both values of the recursive setting. *)
Theorem discovered_paths_end_in_supported_extension :
  forall settings_dict w playlists w',
    discover settings_dict w = (Return playlists, w') ->
    Forall (fun item =>
              exists stem ext,
                In ext supported_playlist_extensions
                /\ snd (os_path.splitext (cand_path item)) = ext
                /\ cand_path item = stem +:+ ext)
           playlists.
Proof.
  intros settings_dict w playlists w' H.
  apply discover_inv in H as (dir & scanned & w1 & _ & _ & -> & _).
  apply List.Forall_forall. intros item Hin.
  apply filter_In in Hin as [_ Hext]. unfold has_supported_extension in Hext.
  apply in_list_In in Hext.
  exists (fst (os_path.splitext (cand_path item))),
         (snd (os_path.splitext (cand_path item))).
  repeat split; [exact Hext | symmetry; apply splitext_app].
Qed.

Lemma discovered_paths_witness :
  Forall (fun item =>
            exists stem ext,
              In ext supported_playlist_extensions
              /\ snd (os_path.splitext (cand_path item)) = ext
              /\ cand_path item = stem +:+ ext)
         [Candidate "Top" "/pl/Top.csv";
          Candidate "Queen" "/pl/rock/Queen.csv";
          Candidate "Wembley" "/pl/rock/live/Wembley.csv"].
Proof.
  apply (discovered_paths_end_in_supported_extension
           Examples.deep Examples.deep_world _
           (snd (discover Examples.deep Examples.deep_world))).
  vm_compute. reflexivity.
Defined.

(** ** Reading the playlists *)

Lemma read_song_spec songRow w :
  read_song songRow w =
  (if short_row songRow then Raise IndexError else Return (song_of_row songRow), w).
Proof.
  destruct songRow as [|a [|t [|al [|i rest]]]]; reflexivity.
Qed.

Lemma for_each_read_song rows w :
  for_each read_song rows w =
  (if existsb short_row rows then Raise IndexError
   else Return (map song_of_row rows), w).
Proof.
  induction rows as [|r rows IH]; [reflexivity|].
  simpl for_each. unfold mbind, M_bind. unfold bind at 1. rewrite read_song_spec.
  simpl existsb. destruct (short_row r); [reflexivity|].
  simpl. unfold bind. rewrite IH. now destruct (existsb short_row rows).
Qed.

Lemma read_only_read_playlist playlist : read_only (read_playlist playlist).
Proof.
  intros w. unfold read_playlist, mbind, M_bind, bind, io_open_read.
  destruct (fs.open_read w (cand_path playlist)) as [e|text]; [reflexivity|].
  destruct (csv.reader (io_text.lines text)) as [rows err].
  rewrite for_each_read_song.
  destruct (existsb short_row rows); [reflexivity|]. now destruct err.
Qed.

Lemma read_playlist_name playlist w entry w' :
  read_playlist playlist w = (Return entry, w') -> entry_name entry = cand_name playlist.
Proof.
  unfold read_playlist, mbind, M_bind, bind, io_open_read.
  destruct (fs.open_read w (cand_path playlist)) as [e|text]; [discriminate|].
  destruct (csv.reader (io_text.lines text)) as [rows err].
  rewrite for_each_read_song.
  destruct (existsb short_row rows); [discriminate|].
  destruct err; [discriminate|]. unfold ret. intros [= <- _]. reflexivity.
Qed.

Lemma for_each_inv {A B} (f : A -> M B) (R : A -> B -> Prop) :
  (forall x w y w', f x w = (Return y, w') -> R x y) ->
  forall l w ys w', for_each f l w = (Return ys, w') -> Forall2 R l ys.
Proof.
  intros Hf. induction l as [|x l IH]; intros w ys w' H.
  - injection H as <- _. constructor.
  - simpl in H. unfold mbind, M_bind in H.
    apply bind_inv in H as (y & w1 & Hy & H).
    apply bind_inv in H as (ys' & w2 & Hys & H).
    injection H as <- _. constructor; eauto.
Qed.

Lemma for_each_raises {A B} (f : A -> M B) (l : list A) x w :
  (forall y, read_only (f y)) ->
  In x l -> (exists e, fst (f x w) = Raise e) ->
  exists e, for_each f l w = (Raise e, w).
Proof.
  intros Hro Hin [e0 Hx]. induction l as [|y l IH]; [destruct Hin|].
  simpl. unfold mbind, M_bind. unfold bind at 1.
  pose proof (Hro y w) as Hw. destruct (f y w) as [[b|e] w1] eqn:Ey; simpl in Hw; subst w1.
  - destruct Hin as [-> | Hin].
    + rewrite Ey in Hx. discriminate.
    + destruct (IH Hin) as [e He]. exists e. unfold bind. now rewrite He.
  - eauto.
Qed.

Lemma map_filter_names (T : list string) playlists :
  names_of (List.filter (fun item => PyStr.in_list (cand_name item) T) playlists)
  = List.filter (fun n => PyStr.in_list n T) (names_of playlists).
Proof.
  induction playlists as [|c l IH]; [reflexivity|].
  simpl. destruct (PyStr.in_list (cand_name c) T); simpl; now rewrite IH.
Qed.

Lemma filter_in_itself (names : list string) :
  List.filter (fun n => PyStr.in_list n names) names = names.
Proof.
  apply forallb_filter_id. apply forallb_forall. intros n Hn. now apply in_list_In.
Qed.

Lemma filter_in_filtered (P : string -> bool) (names : list string) :
  List.filter (fun n => PyStr.in_list n (List.filter P names)) names
  = List.filter P names.
Proof.
  apply filter_ext_in. intros n Hn.
  destruct (P n) eqn:E.
  - apply in_list_In. apply filter_In. auto.
  - destruct (PyStr.in_list n (List.filter P names)) eqn:E'; [|reflexivity].
    apply in_list_In, filter_In in E' as [_ E']. congruence.
Qed.

Lemma filter_by_filter_list re_match names pattern :
  List.filter (fun n => PyStr.in_list n (name_filter.filter_list re_match names pattern))
    names
  = name_filter.filter_list re_match names pattern.
Proof.
  unfold name_filter.filter_list. destruct (String.eqb pattern "").
  - apply filter_in_itself.
  - apply filter_in_filtered.
Qed.

(** ** The input role, step by step *)

Lemma run_inputs_unfold re_match settings_dict kwargs w playlists w1 pattern :
  component kwargs = "inputs" ->
  discover settings_dict w = (Return playlists, w1) ->
  settings_dict !! "filter" = Some pattern ->
  run re_match settings_dict kwargs w =
  bind (for_each read_playlist
          (List.filter
             (fun item =>
                PyStr.in_list (cand_name item)
                  (name_filter.filter_list re_match (names_of playlists) pattern))
             playlists))
       (fun songs_dict => ret (Some songs_dict))
       (World (fs_root w1) (fs_cwd w1)
          (log w1 ++ [log_info (Match_filter
                         (length (name_filter.filter_list re_match
                                    (names_of playlists) pattern)))])).
Proof.
  intros Hrole Hd Hf. unfold run, mbind, M_bind.
  rewrite (bind_return _ _ _ _ _ Hd), Hrole.
  change ("inputs" =? "inputs")%string with true. cbn beta iota.
  unfold getitem. rewrite Hf. reflexivity.
Qed.

Lemma run_inputs_inv re_match settings_dict kwargs w res w' :
  component kwargs = "inputs" ->
  run re_match settings_dict kwargs w = (Return (Some res), w') ->
  exists playlists w1 pattern,
    discover settings_dict w = (Return playlists, w1)
    /\ settings_dict !! "filter" = Some pattern
    /\ exists w2,
        for_each read_playlist
          (List.filter
             (fun item =>
                PyStr.in_list (cand_name item)
                  (name_filter.filter_list re_match (names_of playlists) pattern))
             playlists) w2 = (Return res, w').
Proof.
  intros Hrole Hrun.
  destruct (discover settings_dict w) as [[playlists|e] w1] eqn:Hd.
  - destruct (settings_dict !! "filter") as [pattern|] eqn:Hf.
    + rewrite (run_inputs_unfold _ _ _ _ _ _ _ Hrole Hd Hf) in Hrun.
      apply bind_inv in Hrun as (sd & w2 & Hfe & Hret).
      injection Hret as <- <-. exists playlists, w1, pattern. eauto.
    + revert Hrun. unfold run, mbind, M_bind.
      rewrite (bind_return _ _ _ _ _ Hd), Hrole.
      change ("inputs" =? "inputs")%string with true. cbn beta iota.
      unfold getitem. rewrite Hf. discriminate.
  - revert Hrun. unfold run, mbind, M_bind.
    rewrite (bind_raise _ _ _ _ _ Hd). discriminate.
Qed.

Lemma names_of_entries playlists res :
  Forall2 (fun c e => entry_name e = cand_name c) playlists res ->
  entry_names res = names_of playlists.
Proof.
  induction 1 as [|c e l l' Hce _ IH]; [reflexivity|].
  unfold entry_names, names_of in *. simpl. now rewrite Hce, IH.
Qed.

(** C7: in the input role the names of the returned entries are, in
    discovery order, the discovered names that the name filter returns for
    the pattern: the code keeps a candidate when its name is in the list the
    filter returned, and that selection is the returned list itself.  With
    the empty pattern every discovered name is returned. *)
Theorem run_entry_names_are_the_filtered_names :
  forall re_match settings_dict kwargs w res w',
    component kwargs = "inputs" ->
    run re_match settings_dict kwargs w = (Return (Some res), w') ->
    exists playlists w1 pattern,
      discover settings_dict w = (Return playlists, w1)
      /\ settings_dict !! "filter" = Some pattern
      /\ entry_names res =
         List.filter
           (fun n => PyStr.in_list n
                       (name_filter.filter_list re_match (names_of playlists) pattern))
           (names_of playlists)
      /\ entry_names res = name_filter.filter_list re_match (names_of playlists) pattern
      /\ (pattern = "" -> entry_names res = names_of playlists).
Proof.
  intros re_match settings_dict kwargs w res w' Hrole Hrun.
  destruct (run_inputs_inv _ _ _ _ _ _ Hrole Hrun)
    as (playlists & w1 & pattern & Hd & Hf & w2 & Hfe).
  exists playlists, w1, pattern. split; [exact Hd|]. split; [exact Hf|].
  apply (for_each_inv read_playlist (fun c e => entry_name e = cand_name c)) in Hfe;
    [|intros x w0 y w0'; apply read_playlist_name].
  assert (Hnames : entry_names res =
                   List.filter
                     (fun n => PyStr.in_list n
                        (name_filter.filter_list re_match (names_of playlists) pattern))
                     (names_of playlists)).
  { rewrite <- map_filter_names. now apply names_of_entries. }
  split; [exact Hnames|].
  rewrite filter_by_filter_list in Hnames. split; [exact Hnames|].
  intros ->. exact Hnames.
Qed.

Lemma run_entry_names_witness :
  (exists playlists w1 pattern,
     discover Examples.deep Examples.deep_world = (Return playlists, w1)
     /\ Examples.deep !! "filter" = Some pattern
     /\ ["Top"; "Queen"; "Wembley"] =
        List.filter
          (fun n => PyStr.in_list n
                      (name_filter.filter_list Examples.no_regex
                         (names_of playlists) pattern))
          (names_of playlists)
     /\ ["Top"; "Queen"; "Wembley"]
        = name_filter.filter_list Examples.no_regex (names_of playlists) pattern
     /\ (pattern = "" -> ["Top"; "Queen"; "Wembley"] = names_of playlists))
  /\
  (exists playlists w1 pattern,
     discover Examples.deep_q Examples.deep_world = (Return playlists, w1)
     /\ Examples.deep_q !! "filter" = Some pattern
     /\ ["Queen"] =
        List.filter
          (fun n => PyStr.in_list n
                      (name_filter.filter_list Examples.literal_match
                         (names_of playlists) pattern))
          (names_of playlists)
     /\ ["Queen"]
        = name_filter.filter_list Examples.literal_match (names_of playlists) pattern
     /\ (pattern = "" -> ["Queen"] = names_of playlists)).
Proof.
  split.
  - apply (run_entry_names_are_the_filtered_names
             Examples.no_regex Examples.deep Examples.as_input Examples.deep_world
             [Entry "Top" ∅ [Examples.queen; Examples.abba];
              Entry "Queen" ∅ [Examples.queen];
              Entry "Wembley" ∅ [Examples.queen]]
             (snd (run Examples.no_regex Examples.deep Examples.as_input
                     Examples.deep_world))).
    + reflexivity.
    + vm_compute. reflexivity.
  - apply (run_entry_names_are_the_filtered_names
             Examples.literal_match Examples.deep_q Examples.as_input Examples.deep_world
             [Entry "Queen" ∅ [Examples.queen]]
             (snd (run Examples.literal_match Examples.deep_q Examples.as_input
                     Examples.deep_world))).
    + reflexivity.
    + vm_compute. reflexivity.
Defined.

(** ** An exception while reading a playlist ends the run *)

Lemma open_read_same_fs w w' path :
  same_fs w w' -> fs.open_read w' path = fs.open_read w path.
Proof.
  intros [Hroot Hcwd]. unfold fs.open_read, fs.resolve. now rewrite Hroot, Hcwd.
Qed.

Lemma read_playlist_spec playlist w :
  read_playlist playlist w =
  (match fs.open_read w (cand_path playlist) with
   | inl e => Raise e
   | inr text =>
       let (rows, err) := csv.reader (io_text.lines text) in
       if existsb short_row rows then Raise IndexError
       else match err with
            | Some e => Raise (csv_Error e)
            | None => Return (Entry (cand_name playlist) ∅ (map song_of_row rows))
            end
   end, w).
Proof.
  unfold read_playlist, mbind, M_bind, bind, io_open_read.
  destruct (fs.open_read w (cand_path playlist)) as [e|text]; [reflexivity|].
  destruct (csv.reader (io_text.lines text)) as [rows err].
  rewrite for_each_read_song.
  destruct (existsb short_row rows); [reflexivity|]. now destruct err.
Qed.

Lemma read_playlist_same_fs playlist w w' :
  same_fs w w' -> fst (read_playlist playlist w') = fst (read_playlist playlist w).
Proof.
  intros H. rewrite !read_playlist_spec. simpl. now rewrite (open_read_same_fs _ _ _ H).
Qed.

Lemma run_inputs_aborts re_match settings_dict kwargs w playlists w1 pattern item e0 :
  component kwargs = "inputs" ->
  discover settings_dict w = (Return playlists, w1) ->
  settings_dict !! "filter" = Some pattern ->
  In item playlists ->
  PyStr.in_list (cand_name item)
    (name_filter.filter_list re_match (names_of playlists) pattern) = true ->
  fst (read_playlist item w) = Raise e0 ->
  exists e,
    run re_match settings_dict kwargs w =
    (Raise e,
     World (fs_root w1) (fs_cwd w1)
       (log w1 ++ [log_info (Match_filter
                      (length (name_filter.filter_list re_match
                                 (names_of playlists) pattern)))])).
Proof.
  intros Hrole Hd Hf Hin Hkeep Hraise.
  rewrite (run_inputs_unfold _ _ _ _ _ _ _ Hrole Hd Hf).
  set (w2 := World _ _ _).
  assert (Hfs : same_fs w w2).
  { pose proof (preserves_discover settings_dict w) as H. rewrite Hd in H.
    destruct H as [H1 H2]. split; simpl; assumption. }
  destruct (for_each_raises read_playlist
              (List.filter
                 (fun item0 =>
                    PyStr.in_list (cand_name item0)
                      (name_filter.filter_list re_match (names_of playlists) pattern))
                 playlists) item w2) as [e He].
  - exact read_only_read_playlist.
  - apply filter_In. split; assumption.
  - exists e0. now rewrite (read_playlist_same_fs _ _ _ Hfs).
  - exists e. unfold bind. now rewrite He.
Qed.

(** C4, as amended: a playlist file that survives both filters and cannot be
    opened or decoded makes [run] raise.  The exception of [io.open] leaves
    the loop body and nothing catches it: the run ends with an exception
    (this file's, or that of a playlist read before it), no playlist is
    returned, and the log holds only what discovery and the filter count
    wrote. *)
Theorem run_raises_when_a_playlist_cannot_be_opened :
  forall re_match settings_dict kwargs w playlists w1 pattern item e0,
    component kwargs = "inputs" ->
    discover settings_dict w = (Return playlists, w1) ->
    settings_dict !! "filter" = Some pattern ->
    In item playlists ->
    PyStr.in_list (cand_name item)
      (name_filter.filter_list re_match (names_of playlists) pattern) = true ->
    fs.open_read w (cand_path item) = inl e0 ->
    read_playlist item w = (Raise e0, w)
    /\ exists e,
        run re_match settings_dict kwargs w =
        (Raise e,
         World (fs_root w1) (fs_cwd w1)
           (log w1 ++ [log_info (Match_filter
                          (length (name_filter.filter_list re_match
                                     (names_of playlists) pattern)))])).
Proof.
  intros re_match settings_dict kwargs w playlists w1 pattern item e0
         Hrole Hd Hf Hin Hkeep Hopen.
  assert (Hrp : read_playlist item w = (Raise e0, w)).
  { rewrite read_playlist_spec, Hopen. reflexivity. }
  split; [exact Hrp|].
  apply (run_inputs_aborts _ _ _ _ _ _ _ item e0); try assumption.
  now rewrite Hrp.
Qed.

(** C2, as amended: a row with fewer than 4 columns is not skipped.
    Indexing it raises [IndexError], which nothing in [run] catches: reading
    that playlist raises, the run ends with an exception (this one, or that
    of a playlist read before it), no playlist is returned, and nothing is
    logged for the row. *)
Theorem run_raises_on_a_short_row :
  forall re_match settings_dict kwargs w playlists w1 pattern item text,
    component kwargs = "inputs" ->
    discover settings_dict w = (Return playlists, w1) ->
    settings_dict !! "filter" = Some pattern ->
    In item playlists ->
    PyStr.in_list (cand_name item)
      (name_filter.filter_list re_match (names_of playlists) pattern) = true ->
    fs.open_read w (cand_path item) = inr text ->
    existsb short_row (fst (csv.reader (io_text.lines text))) = true ->
    read_playlist item w = (Raise IndexError, w)
    /\ exists e,
        run re_match settings_dict kwargs w =
        (Raise e,
         World (fs_root w1) (fs_cwd w1)
           (log w1 ++ [log_info (Match_filter
                          (length (name_filter.filter_list re_match
                                     (names_of playlists) pattern)))])).
Proof.
  intros re_match settings_dict kwargs w playlists w1 pattern item text
         Hrole Hd Hf Hin Hkeep Hopen Hshort.
  assert (Hrp : read_playlist item w = (Raise IndexError, w)).
  { rewrite read_playlist_spec, Hopen.
    destruct (csv.reader (io_text.lines text)) as [rows err]. simpl in Hshort.
    now rewrite Hshort. }
  split; [exact Hrp|].
  apply (run_inputs_aborts _ _ _ _ _ _ _ item IndexError); try assumption.
  now rewrite Hrp.
Qed.

(** X8: a file whose rows all have four columns or more, and that the
    parser accepts to the end, gives the entry named after the candidate,
    with an empty id and one song per row in row order, made of the first
    four columns; further columns are ignored. *)
Lemma read_playlist_well_formed playlist w text rows :
  fs.open_read w (cand_path playlist) = inr text ->
  csv.reader (io_text.lines text) = (rows, None) ->
  existsb short_row rows = false ->
  read_playlist playlist w =
  (Return (Entry (cand_name playlist) ∅ (map song_of_row rows)), w).
Proof.
  intros Hopen Hrows Hshort. rewrite read_playlist_spec, Hopen, Hrows, Hshort.
  reflexivity.
Qed.

Lemma run_raises_when_a_playlist_cannot_be_opened_witness :
  read_playlist (Candidate "Locked" "/pl/Locked.csv") Examples.unreadable_world
  = (Raise (OSError PermissionError "/pl/Locked.csv"), Examples.unreadable_world)
  /\ exists e,
      run Examples.no_regex Examples.flat Examples.as_input Examples.unreadable_world =
      (Raise e,
       World (fs_root (snd (discover Examples.flat Examples.unreadable_world)))
         (fs_cwd (snd (discover Examples.flat Examples.unreadable_world)))
         (log (snd (discover Examples.flat Examples.unreadable_world))
          ++ [log_info (Match_filter
                 (length (name_filter.filter_list Examples.no_regex
                            (names_of [Candidate "Locked" "/pl/Locked.csv";
                                       Candidate "Top" "/pl/Top.csv"]) "")))])).
Proof.
  apply (run_raises_when_a_playlist_cannot_be_opened
           Examples.no_regex Examples.flat Examples.as_input Examples.unreadable_world
           [Candidate "Locked" "/pl/Locked.csv"; Candidate "Top" "/pl/Top.csv"]
           (snd (discover Examples.flat Examples.unreadable_world)) ""
           (Candidate "Locked" "/pl/Locked.csv")
           (OSError PermissionError "/pl/Locked.csv")).
  - reflexivity.
  - vm_compute. reflexivity.
  - vm_compute. reflexivity.
  - simpl. left. reflexivity.
  - vm_compute. reflexivity.
  - vm_compute. reflexivity.
Defined.

(** C4 as stated fails: with one playlist that cannot be opened next to a
    readable one, the run does not return the readable playlist; it raises
    the error of [io.open]. *)
Lemma run_unreadable_playlist_is_fatal :
  fst (run Examples.no_regex Examples.flat
         Examples.as_input Examples.unreadable_world)
  = Raise (OSError PermissionError "/pl/Locked.csv")
  /\ fst (run Examples.no_regex Examples.flat
            Examples.as_input Examples.unreadable_world)
     <> Return (Some [Entry "Top" ∅ [Examples.queen; Examples.abba]])
  /\ log (snd (run Examples.no_regex Examples.flat
                 Examples.as_input Examples.unreadable_world))
     = [log_info (Found_playlists 2); log_info (Match_filter 2)].
Proof.
  split; [vm_compute; reflexivity|].
  split; [vm_compute; discriminate | vm_compute; reflexivity].
Qed.

Lemma run_raises_on_a_short_row_witness :
  read_playlist (Candidate "Mix" "/pl/Mix.csv") Examples.malformed_world
  = (Raise IndexError, Examples.malformed_world)
  /\ exists e,
      run Examples.no_regex Examples.flat Examples.as_input Examples.malformed_world =
      (Raise e,
       World (fs_root (snd (discover Examples.flat Examples.malformed_world)))
         (fs_cwd (snd (discover Examples.flat Examples.malformed_world)))
         (log (snd (discover Examples.flat Examples.malformed_world))
          ++ [log_info (Match_filter
                 (length (name_filter.filter_list Examples.no_regex
                            (names_of [Candidate "Mix" "/pl/Mix.csv"]) "")))])).
Proof.
  apply (run_raises_on_a_short_row
           Examples.no_regex Examples.flat Examples.as_input Examples.malformed_world
           [Candidate "Mix" "/pl/Mix.csv"]
           (snd (discover Examples.flat Examples.malformed_world)) ""
           (Candidate "Mix" "/pl/Mix.csv") Examples.malformed_csv).
  - reflexivity.
  - vm_compute. reflexivity.
  - vm_compute. reflexivity.
  - simpl. left. reflexivity.
  - vm_compute. reflexivity.
  - vm_compute. reflexivity.
  - vm_compute. reflexivity.
Defined.

(** C2 as stated fails: the file with the rows for A, badrow and B does not
    parse to the two songs for A and B; the second row raises and the run
    returns nothing. *)
Lemma run_malformed_row_is_fatal :
  fst (run Examples.no_regex Examples.flat
         Examples.as_input Examples.malformed_world)
  = Raise IndexError
  /\ fst (run Examples.no_regex Examples.flat
            Examples.as_input Examples.malformed_world)
     <> Return (Some [Entry "Mix" ∅ [Examples.song_a; Examples.song_b]])
  /\ log (snd (run Examples.no_regex Examples.flat
                 Examples.as_input Examples.malformed_world))
     = [log_info (Found_playlists 1); log_info (Match_filter 1)].
Proof.
  split; [vm_compute; reflexivity|].
  split; [vm_compute; discriminate | vm_compute; reflexivity].
Qed.

(** ** [rfind], [splitext] and [join] *)

Lemma rfind_bounds s c : (-1 <= PyStr.rfind s c < Z.of_nat (String.length s))%Z.
Proof.
  induction s as [|a s IH]; simpl PyStr.rfind; simpl String.length; [lia|].
  destruct (0 <=? PyStr.rfind s c)%Z eqn:E; [apply Z.leb_le in E; lia|].
  destruct (Ascii.eqb a c); lia.
Qed.

Lemma rfind_app s t c :
  PyStr.rfind (s +:+ t) c =
  if (0 <=? PyStr.rfind t c)%Z then (Z.of_nat (String.length s) + PyStr.rfind t c)%Z
  else PyStr.rfind s c.
Proof.
  induction s as [|a s IH].
  - rewrite append_nil_l. simpl.
    destruct (0 <=? PyStr.rfind t c)%Z eqn:E; [reflexivity|].
    apply Z.leb_gt in E. pose proof (rfind_bounds t c). lia.
  - rewrite append_cons. simpl PyStr.rfind. rewrite IH.
    destruct (0 <=? PyStr.rfind t c)%Z eqn:E; [|reflexivity].
    apply Z.leb_le in E.
    replace (0 <=? Z.of_nat (String.length s) + PyStr.rfind t c)%Z with true
      by (symmetry; apply Z.leb_le; lia).
    simpl String.length. lia.
Qed.

Lemma rfind_absent s c : PyStr.in_chars c s = false -> PyStr.rfind s c = (-1)%Z.
Proof.
  induction s as [|a s IH]; [reflexivity|]. simpl.
  intros H. apply orb_false_iff in H as [Ha Hs]. rewrite (IH Hs).
  rewrite Ascii.eqb_sym, Ha. reflexivity.
Qed.

Lemma endswith_split s c :
  PyStr.endswith s c = true -> exists s', s = s' +:+ String c "".
Proof.
  unfold PyStr.endswith. induction s as [|a s IH]; [discriminate|].
  rewrite last_char_cons. destruct (PyStr.last_char s) as [b|] eqn:E.
  - intros H. destruct (IH H) as [s' ->]. exists (String a s'). reflexivity.
  - intros H. apply Ascii.eqb_eq in H. subst a.
    destruct s as [|b s]; [exists ""; reflexivity|].
    destruct (last_char_some b s) as [d Hd]. congruence.
Qed.

Lemma length_append s t : String.length (s +:+ t) = String.length s + String.length t.
Proof.
  induction s as [|a s IH]; [reflexivity|]. rewrite append_cons. simpl. now rewrite IH.
Qed.

Lemma rfind_endswith s c :
  PyStr.endswith s c = true -> PyStr.rfind s c = (Z.of_nat (String.length s) - 1)%Z.
Proof.
  intros H. destruct (endswith_split s c H) as [s' ->].
  rewrite rfind_app, length_append. simpl. rewrite Ascii.eqb_refl. simpl. lia.
Qed.

Lemma get_append_r s t i : String.get (String.length s + i) (s +:+ t) = String.get i t.
Proof.
  induction s as [|a s IH]; [reflexivity|]. rewrite append_cons. simpl. exact IH.
Qed.

Lemma only_dots_between_append s t i n :
  os_path.only_dots_between (s +:+ t) (String.length s + i) n
  = os_path.only_dots_between t i n.
Proof.
  revert i. induction n as [|n IH]; intros i; [reflexivity|].
  simpl. rewrite get_append_r. destruct (String.get i t) as [a|]; [|reflexivity].
  destruct (Ascii.eqb a PyStr.chr_dot); [|reflexivity].
  rewrite <- IH. f_equal. lia.
Qed.

Lemma drop_append s t n : PyStr.drop (String.length s + n) (s +:+ t) = PyStr.drop n t.
Proof.
  induction s as [|a s IH]; [reflexivity|]. rewrite append_cons. simpl. exact IH.
Qed.

(** The extension of a path is that of its last component: a prefix that is
    empty or ends in a slash changes nothing. *)
Lemma splitext_prefix a item :
  a = "" \/ PyStr.endswith a PyStr.chr_slash = true ->
  PyStr.in_chars PyStr.chr_slash item = false ->
  snd (os_path.splitext (a +:+ item)) = snd (os_path.splitext item).
Proof.
  intros Ha Hitem. unfold os_path.splitext.
  assert (Hsep : PyStr.rfind (a +:+ item) PyStr.chr_slash
                 = (Z.of_nat (String.length a) - 1)%Z).
  { rewrite rfind_app, (rfind_absent _ _ Hitem). simpl.
    destruct Ha as [-> | Ha]; [reflexivity | now apply rfind_endswith]. }
  rewrite Hsep, (rfind_absent item _ Hitem), rfind_app.
  pose proof (rfind_bounds item PyStr.chr_dot) as Hd.
  pose proof (rfind_bounds a PyStr.chr_dot) as Hda.
  destruct (0 <=? PyStr.rfind item PyStr.chr_dot)%Z eqn:E.
  - apply Z.leb_le in E.
    replace (Z.of_nat (String.length a) - 1 <?
             Z.of_nat (String.length a) + PyStr.rfind item PyStr.chr_dot)%Z
      with true by (symmetry; apply Z.ltb_lt; lia).
    replace (-1 <? PyStr.rfind item PyStr.chr_dot)%Z
      with true by (symmetry; apply Z.ltb_lt; lia).
    replace (Z.to_nat (Z.of_nat (String.length a) - 1 + 1)) with (String.length a + 0)
      by lia.
    replace (Z.to_nat (Z.of_nat (String.length a) + PyStr.rfind item PyStr.chr_dot -
                       (Z.of_nat (String.length a) - 1 + 1)))
      with (Z.to_nat (PyStr.rfind item PyStr.chr_dot)) by lia.
    rewrite only_dots_between_append.
    replace (Z.to_nat (-1 + 1)) with 0 by lia.
    replace (Z.to_nat (PyStr.rfind item PyStr.chr_dot - (-1 + 1)))
      with (Z.to_nat (PyStr.rfind item PyStr.chr_dot)) by lia.
    destruct (os_path.only_dots_between item 0 _); [reflexivity|]. simpl.
    replace (Z.to_nat (Z.of_nat (String.length a) + PyStr.rfind item PyStr.chr_dot))
      with (String.length a + Z.to_nat (PyStr.rfind item PyStr.chr_dot)) by lia.
    apply drop_append.
  - apply Z.leb_gt in E.
    replace (Z.of_nat (String.length a) - 1 <? PyStr.rfind a PyStr.chr_dot)%Z
      with false by (symmetry; apply Z.ltb_ge; lia).
    replace (-1 <? PyStr.rfind item PyStr.chr_dot)%Z
      with false by (symmetry; apply Z.ltb_ge; lia).
    reflexivity.
Qed.

Lemma startswith_absent item c :
  PyStr.in_chars c item = false -> PyStr.startswith item c = false.
Proof.
  destruct item as [|a item]; [reflexivity|]. simpl.
  intros H. apply orb_false_iff in H as [H _]. now rewrite Ascii.eqb_sym.
Qed.

Lemma join_ext a item :
  valid_name item = true ->
  snd (os_path.splitext (os_path.join a item)) = snd (os_path.splitext item).
Proof.
  unfold valid_name, PyStr.contains. intros H. apply negb_true_iff in H.
  unfold os_path.join. rewrite (startswith_absent _ _ H).
  destruct (String.eqb a "") eqn:Ea.
  - apply String.eqb_eq in Ea. subst a. simpl. apply splitext_prefix; auto.
  - simpl. destruct (PyStr.endswith a PyStr.chr_slash) eqn:Es.
    + apply splitext_prefix; auto.
    + rewrite <- append_assoc. apply splitext_prefix; [|exact H]. right.
      unfold PyStr.endswith. rewrite last_char_app. reflexivity.
Qed.

Lemma candidate_supported root item :
  valid_name item = true ->
  has_supported_extension (candidate root item) = supported_name item.
Proof.
  intros H. unfold has_supported_extension, supported_name, candidate. simpl.
  now rewrite join_ext.
Qed.

(** ** Counting the candidates *)

(** Induction on a tree, with the property known for every entry of a
    directory. *)
Lemma node_nested_ind (P : node -> Prop) :
  (forall c, P (File c)) ->
  (forall listable es, List.Forall (fun e => P (snd e)) es -> P (Dir listable es)) ->
  forall n, P n.
Proof.
  intros HF HD. fix IH 1. intros [c | listable es].
  - apply HF.
  - apply HD. induction es as [|[item child] es IHes]; constructor.
    + apply IH.
    + exact IHes.
Qed.









(** ** What the walk reaches *)




(** ** Discovery *)





(** ** Sanity checks of the library models *)

Example splitext_csv : os_path.splitext "/pl/Top.csv" = ("/pl/Top", ".csv").
Proof. reflexivity. Qed.

Example splitext_hidden : os_path.splitext "/pl/.csv" = ("/pl/.csv", "").
Proof. reflexivity. Qed.

Example splitext_dotted_dir : os_path.splitext "/my.dir/Top" = ("/my.dir/Top", "").
Proof. reflexivity. Qed.

Example splitext_last_dot : os_path.splitext "a/..b.csv.bak" = ("a/..b.csv", ".bak").
Proof. reflexivity. Qed.

Example splitext_upper_case :
  supported_name "Top.CSV" = false /\ supported_name "Top.csv" = true.
Proof. split; reflexivity. Qed.

Example join_examples :
  os_path.join "/pl" "Top.csv" = "/pl/Top.csv"
  /\ os_path.join "/pl/" "Top.csv" = "/pl/Top.csv"
  /\ os_path.join "" "Top.csv" = "Top.csv".
Proof. repeat split; reflexivity. Qed.

Example rstrip_slashes : PyStr.rstrip "/" "/mnt/music///" = "/mnt/music".
Proof. reflexivity. Qed.

Example normalise_root : normalise_dir "/" = "".
Proof. reflexivity. Qed.

(** A quoted field keeps its comma and its line break, and a doubled quote
    is one quote. *)
Example reader_quoted_field :
  csv.reader
    (io_text.lines
       ("a," +:+ String PyStr.chr_quote "x,y" +:+ Examples.nl +:+ "z"
        +:+ String PyStr.chr_quote (String PyStr.chr_quote "w")
        +:+ String PyStr.chr_quote ",c,d" +:+ Examples.crlf))
  = ([["a"; "x,y" +:+ Examples.nl +:+ "z" +:+ String PyStr.chr_quote "w"; "c"; "d"]],
     None).
Proof. vm_compute. reflexivity. Qed.

(** A blank line is a row without columns. *)
Example reader_blank_line :
  csv.reader (io_text.lines ("a,b" +:+ Examples.nl +:+ Examples.nl +:+ "c,d"))
  = ([["a"; "b"]; []; ["c"; "d"]], None).
Proof. vm_compute. reflexivity. Qed.

Example resolve_examples :
  fs.listdir Examples.deep_world "/pl/rock/../rock/./live/" = inr ["Wembley.csv"]
  /\ fs.listdir Examples.deep_world "/pl/Top.csv" = inl NotADirectoryError
  /\ fs.listdir Examples.deep_world "/nowhere" = inl FileNotFoundError
  /\ fs.listdir Examples.deep_world "" = inl FileNotFoundError.
Proof. repeat split; reflexivity. Qed.

(** ** Discovery, in closed form *)

Lemma scan_directory_spec settings_dict path w :
  scan_directory settings_dict path w =
  (Return (fst (scan_result settings_dict path w)),
   logged w (snd (scan_result settings_dict path w))).
Proof.
  unfold scan_directory, scan_result, try_except, getitem, mbind, M_bind, bind.
  unfold logged. destruct w as [root cwd lg].
  destruct (settings_dict !! "recursive") as [recursive|]; simpl.
  - destruct (String.eqb recursive "Yes"); simpl.
    + unfold os_walk. simpl. now rewrite app_nil_r.
    + unfold os_listdir. simpl.
      destruct (fs.listdir _ path); simpl; [reflexivity | now rewrite app_nil_r].
  - reflexivity.
Qed.

Lemma discover_spec settings_dict dir w :
  settings_dict !! "dir" = Some dir ->
  discover settings_dict w =
  (Return (List.filter has_supported_extension
             (fst (scan_result settings_dict (normalise_dir dir) w))),
   logged w
     (snd (scan_result settings_dict (normalise_dir dir) w)
      ++ [log_info (Found_playlists
            (length (List.filter has_supported_extension
                       (fst (scan_result settings_dict (normalise_dir dir) w)))))])).
Proof.
  intros Hdir. unfold discover, getitem, mbind, M_bind. rewrite Hdir.
  unfold bind at 1. unfold ret at 1.
  unfold bind at 1. rewrite scan_directory_spec.
  unfold bind, emit, ret, logged. simpl. now rewrite <- app_assoc.
Qed.

(** X1: without the [dir] setting nothing happens: line 76 raises
    [KeyError] before anything is listed, read or logged. *)
Theorem run_without_dir_raises_KeyError :
  forall re_match settings_dict kwargs w,
    settings_dict !! "dir" = None ->
    run re_match settings_dict kwargs w = (Raise (KeyError "dir"), w).
Proof.
  intros re_match settings_dict kwargs w Hdir.
  unfold run, discover, getitem, mbind, M_bind. rewrite Hdir. reflexivity.
Qed.

Lemma run_without_dir_witness :
  run Examples.no_regex (<["recursive" := "No"]> ∅) Examples.as_input Examples.deep_world
  = (Raise (KeyError "dir"), Examples.deep_world).
Proof.
  apply (run_without_dir_raises_KeyError
           Examples.no_regex (<["recursive" := "No"]> ∅) Examples.as_input
           Examples.deep_world).
  vm_compute. reflexivity.
Defined.

Lemma filter_list_nil re_match pattern : name_filter.filter_list re_match [] pattern = [].
Proof. unfold name_filter.filter_list. now destruct (String.eqb pattern ""). Qed.

(** X2: a missing [recursive] setting is not fatal.  Its [KeyError] is raised
    inside the [try] block, so the handler logs it and discovery goes on with
    no candidates; the input role then returns the empty list. *)
Theorem run_without_recursive_finds_nothing :
  forall re_match settings_dict kwargs w dir pattern,
    settings_dict !! "dir" = Some dir ->
    settings_dict !! "recursive" = None ->
    settings_dict !! "filter" = Some pattern ->
    component kwargs = "inputs" ->
    run re_match settings_dict kwargs w =
    (Return (Some []),
     logged w [log_error (KeyError "recursive");
               log_info (Found_playlists 0);
               log_info (Match_filter 0)]).
Proof.
  intros re_match settings_dict kwargs w dir pattern Hdir Hrec Hf Hrole.
  assert (Hd : discover settings_dict w =
               (Return [], logged w [log_error (KeyError "recursive");
                                     log_info (Found_playlists 0)])).
  { rewrite (discover_spec _ _ _ Hdir). unfold scan_result. rewrite Hrec. reflexivity. }
  rewrite (run_inputs_unfold _ _ _ _ _ _ _ Hrole Hd Hf).
  simpl. rewrite filter_list_nil. unfold bind, ret, logged. simpl.
  now rewrite <- app_assoc.
Qed.

Lemma run_without_recursive_witness :
  run Examples.no_regex (<["dir" := "/pl"]> (<["filter" := ""]> ∅)) Examples.as_input
      Examples.deep_world
  = (Return (Some []),
     logged Examples.deep_world
       [log_error (KeyError "recursive");
        log_info (Found_playlists 0);
        log_info (Match_filter 0)]).
Proof.
  apply (run_without_recursive_finds_nothing
           Examples.no_regex (<["dir" := "/pl"]> (<["filter" := ""]> ∅))
           Examples.as_input Examples.deep_world "/pl" "").
  - vm_compute. reflexivity.
  - vm_compute. reflexivity.
  - vm_compute. reflexivity.
  - reflexivity.
Defined.

(** X3: in the input role the [filter] setting is read after discovery, so a
    settings dict without it raises [KeyError] once the directory has been
    scanned and the number of playlists logged, however many were found; no
    playlist file is opened. *)
Theorem run_inputs_without_filter_raises_KeyError :
  forall re_match settings_dict kwargs w dir,
    settings_dict !! "dir" = Some dir ->
    settings_dict !! "filter" = None ->
    component kwargs = "inputs" ->
    exists playlists w1,
      discover settings_dict w = (Return playlists, w1)
      /\ run re_match settings_dict kwargs w = (Raise (KeyError "filter"), w1).
Proof.
  intros re_match settings_dict kwargs w dir Hdir Hf Hrole.
  destruct (discover_returns settings_dict dir w Hdir) as (playlists & w1 & Hd).
  exists playlists, w1. split; [exact Hd|].
  unfold run, mbind, M_bind. rewrite (bind_return _ _ _ _ _ Hd), Hrole.
  change ("inputs" =? "inputs")%string with true. cbn beta iota.
  unfold getitem. rewrite Hf. reflexivity.
Qed.

Lemma run_inputs_without_filter_witness :
  exists playlists w1,
    discover (<["dir" := "/pl"]> (<["recursive" := "Yes"]> ∅)) Examples.deep_world
    = (Return playlists, w1)
    /\ run Examples.no_regex (<["dir" := "/pl"]> (<["recursive" := "Yes"]> ∅))
         Examples.as_input Examples.deep_world
       = (Raise (KeyError "filter"), w1).
Proof.
  apply (run_inputs_without_filter_raises_KeyError
           Examples.no_regex (<["dir" := "/pl"]> (<["recursive" := "Yes"]> ∅))
           Examples.as_input Examples.deep_world "/pl").
  - vm_compute. reflexivity.
  - vm_compute. reflexivity.
  - reflexivity.
Defined.

(** X4: only the exact string Yes turns recursion on.  Any other value of the
    [recursive] setting makes the run what it is with No. *)
Theorem run_recursive_other_than_Yes_is_No :
  forall re_match settings_dict kwargs w recursive,
    settings_dict !! "recursive" = Some recursive ->
    recursive <> "Yes" ->
    run re_match settings_dict kwargs w
    = run re_match (<["recursive" := "No"]> settings_dict) kwargs w.
Proof.
  intros re_match settings_dict kwargs w recursive Hrec Hno.
  apply String.eqb_neq in Hno.
  assert (Hd : discover settings_dict w
               = discover (<["recursive" := "No"]> settings_dict) w).
  { destruct (settings_dict !! "dir") as [dir|] eqn:Hdir.
    - rewrite (discover_spec _ _ _ Hdir).
      rewrite (discover_spec (<["recursive" := "No"]> settings_dict) dir w)
        by (rewrite lookup_insert_ne; [exact Hdir | discriminate]).
      unfold scan_result. rewrite Hrec, Hno, lookup_insert_eq. reflexivity.
    - unfold discover, getitem, mbind, M_bind.
      rewrite lookup_insert_ne by discriminate. rewrite Hdir. reflexivity. }
  unfold run, mbind, M_bind, bind. rewrite <- Hd.
  destruct (discover settings_dict w) as [[playlists|e] w1]; [|reflexivity].
  destruct (String.eqb (component kwargs) "inputs"); [|reflexivity].
  unfold getitem. rewrite lookup_insert_ne by discriminate. reflexivity.
Qed.

Lemma run_recursive_other_than_Yes_witness :
  run Examples.no_regex (Examples.settings "/pl" "yes" "") Examples.as_input
      Examples.deep_world
  = run Examples.no_regex (<["recursive" := "No"]> (Examples.settings "/pl" "yes" ""))
      Examples.as_input Examples.deep_world.
Proof.
  apply (run_recursive_other_than_Yes_is_No
           Examples.no_regex (Examples.settings "/pl" "yes" "") Examples.as_input
           Examples.deep_world "yes").
  - vm_compute. reflexivity.
  - discriminate.
Defined.

(** ** Results depend on the file system only *)

Lemma same_fs_sym w w' : same_fs w w' -> same_fs w' w.
Proof. intros [H1 H2]. split; congruence. Qed.

Lemma resolve_same_fs w w' path :
  same_fs w w' -> fs.resolve w' path = fs.resolve w path.
Proof. intros [Hroot Hcwd]. unfold fs.resolve. now rewrite Hroot, Hcwd. Qed.

Lemma respects_ret {A} (a : A) : respects_fs (ret a).
Proof. intros w w' H. split; [reflexivity | exact H]. Qed.

Lemma respects_raise {A} (e : exn) : respects_fs (@raise A e).
Proof. intros w w' H. split; [reflexivity | exact H]. Qed.

Lemma respects_bind {A B} (m : M A) (k : A -> M B) :
  respects_fs m -> (forall a, respects_fs (k a)) -> respects_fs (bind m k).
Proof.
  intros Hm Hk w w' H. unfold bind. destruct (Hm w w' H) as [Ho Hw].
  destruct (m w) as [[a|e] w1], (m w') as [[a'|e'] w1']; simpl in *;
    try discriminate.
  - injection Ho as ->. now apply Hk.
  - injection Ho as ->. split; [reflexivity | exact Hw].
Qed.

Lemma respects_try {A} (body : M A) (handler : exn -> M A) :
  respects_fs body -> (forall e, respects_fs (handler e)) ->
  respects_fs (try_except body handler).
Proof.
  intros Hm Hk w w' H. unfold try_except. destruct (Hm w w' H) as [Ho Hw].
  destruct (body w) as [[a|e] w1], (body w') as [[a'|e'] w1']; simpl in *;
    try discriminate.
  - split; [exact Ho | exact Hw].
  - injection Ho as ->. now apply Hk.
Qed.

Lemma respects_for_each {A B} (f : A -> M B) (l : list A) :
  (forall x, respects_fs (f x)) -> respects_fs (for_each f l).
Proof.
  intros Hf. induction l as [|x l IH]; simpl.
  - apply respects_ret.
  - apply respects_bind; [apply Hf | intros y].
    apply respects_bind; [exact IH | intros ys]. apply respects_ret.
Qed.

Lemma respects_emit r : respects_fs (emit r).
Proof.
  intros w w' [H1 H2]. split; [reflexivity|]. split; simpl; assumption.
Qed.

Lemma respects_getitem d k : respects_fs (getitem d k).
Proof. unfold getitem. destruct (d !! k); [apply respects_ret | apply respects_raise]. Qed.

Lemma respects_getitem_list row i : respects_fs (getitem_list row i).
Proof.
  unfold getitem_list.
  destruct (nth_error row i); [apply respects_ret | apply respects_raise].
Qed.

Lemma respects_os_listdir path : respects_fs (os_listdir path).
Proof.
  intros w w' H. unfold os_listdir, fs.listdir. rewrite (resolve_same_fs _ _ _ H).
  destruct (fs.resolve w path) as [e|[c|[|] es]]; simpl; split; auto.
Qed.

Lemma respects_os_walk top : respects_fs (os_walk top).
Proof.
  intros w w' H. unfold os_walk, fs.walk. rewrite (resolve_same_fs _ _ _ H).
  split; [reflexivity | exact H].
Qed.

Lemma respects_io_open_read path : respects_fs (io_open_read path).
Proof.
  intros w w' H. unfold io_open_read. rewrite (open_read_same_fs _ _ _ H).
  destruct (fs.open_read w path); simpl; split; auto.
Qed.

Ltac respects_step :=
  first
    [ apply respects_ret | apply respects_raise | apply respects_emit
    | apply respects_getitem | apply respects_getitem_list
    | apply respects_os_listdir | apply respects_os_walk
    | apply respects_io_open_read
    | apply respects_bind; [| intros ?]
    | apply respects_try; [| intros ?]
    | apply respects_for_each; intros ?
    | match goal with
      | |- respects_fs (if ?b then _ else _) => destruct b
      | |- respects_fs (match ?x with _ => _ end) => destruct x
      end ].

Lemma respects_run re_match settings_dict kwargs :
  respects_fs (run re_match settings_dict kwargs).
Proof. unfold run. unfold mbind, M_bind. repeat respects_step. Qed.

(** X6: what a run returns or raises is fixed by the settings, the role and
    the file system.  A run of either role, with any settings, leaves the
    result of the next run what it would have been without it: reading the
    same directory twice gives the same playlists. *)
Theorem run_result_unchanged_by_earlier_run :
  forall re_match settings_dict kwargs re_match' settings_dict' kwargs' w,
    fst (run re_match settings_dict kwargs
           (snd (run re_match' settings_dict' kwargs' w)))
    = fst (run re_match settings_dict kwargs w).
Proof.
  intros. apply (respects_run re_match settings_dict kwargs).
  apply preserves_run.
Qed.

(** ** The log only grows *)

Lemma extends_ret {A} (a : A) : extends_log (ret a).
Proof. intros w. exists []. simpl. now rewrite app_nil_r. Qed.

Lemma extends_raise {A} (e : exn) : extends_log (@raise A e).
Proof. intros w. exists []. simpl. now rewrite app_nil_r. Qed.

Lemma extends_bind {A B} (m : M A) (k : A -> M B) :
  extends_log m -> (forall a, extends_log (k a)) -> extends_log (bind m k).
Proof.
  intros Hm Hk w. unfold bind. destruct (Hm w) as [r1 H1].
  destruct (m w) as [[a|e] w1]; simpl in *.
  - destruct (Hk a w1) as [r2 H2]. exists (r1 ++ r2).
    now rewrite H2, H1, app_assoc.
  - eauto.
Qed.

Lemma extends_try {A} (body : M A) (handler : exn -> M A) :
  extends_log body -> (forall e, extends_log (handler e)) ->
  extends_log (try_except body handler).
Proof.
  intros Hm Hk w. unfold try_except. destruct (Hm w) as [r1 H1].
  destruct (body w) as [[a|e] w1]; simpl in *.
  - eauto.
  - destruct (Hk e w1) as [r2 H2]. exists (r1 ++ r2).
    now rewrite H2, H1, app_assoc.
Qed.

Lemma extends_for_each {A B} (f : A -> M B) (l : list A) :
  (forall x, extends_log (f x)) -> extends_log (for_each f l).
Proof.
  intros Hf. induction l as [|x l IH]; simpl.
  - apply extends_ret.
  - apply extends_bind; [apply Hf | intros y].
    apply extends_bind; [exact IH | intros ys]. apply extends_ret.
Qed.

Lemma extends_emit r : extends_log (emit r).
Proof. intros w. exists [r]. reflexivity. Qed.

Lemma extends_read_only {A} (m : M A) : read_only m -> extends_log m.
Proof. intros H w. exists []. rewrite H. now rewrite app_nil_r. Qed.

Lemma extends_discover settings_dict : extends_log (discover settings_dict).
Proof.
  intros w. destruct (settings_dict !! "dir") as [dir|] eqn:Hdir.
  - rewrite (discover_spec _ _ _ Hdir). simpl. eauto.
  - unfold discover, getitem, mbind, M_bind. rewrite Hdir.
    exists []. simpl. now rewrite app_nil_r.
Qed.

Lemma extends_getitem d k : extends_log (getitem d k).
Proof. unfold getitem. destruct (d !! k); [apply extends_ret | apply extends_raise]. Qed.

Lemma extends_run re_match settings_dict kwargs :
  extends_log (run re_match settings_dict kwargs).
Proof.
  unfold run, mbind, M_bind.
  apply extends_bind; [apply extends_discover | intros playlists].
  destruct (String.eqb (component kwargs) "inputs"); [|apply extends_ret].
  apply extends_bind; [apply extends_getitem | intros pattern].
  apply extends_bind; [apply extends_emit | intros _].
  apply extends_bind; [|intros res; apply extends_ret].
  apply extends_for_each. intros item.
  apply extends_read_only, read_only_read_playlist.
Qed.

(** X5: the only effect of [run], in any role and whether it returns or
    raises, is to append records to the log: the file system is left as it
    was (nothing is written, created, renamed or removed) and the records
    already logged stay in front, in order. *)
Theorem run_only_appends_to_the_log :
  forall re_match settings_dict kwargs w,
    exists records,
      snd (run re_match settings_dict kwargs w) = logged w records.
Proof.
  intros re_match settings_dict kwargs w.
  destruct (extends_run re_match settings_dict kwargs w) as [records Hlog].
  destruct (preserves_run re_match settings_dict kwargs w) as [Hroot Hcwd].
  exists records. unfold logged.
  destruct (snd (run re_match settings_dict kwargs w)) as [root cwd lg].
  simpl in *. now subst.
Qed.

(** ** The input role when every kept playlist reads *)

Lemma for_each_all_return {A B} (f : A -> M B) (l : list A) w :
  (forall x, read_only (f x)) ->
  Forall (fun x => exists y, fst (f x w) = Return y) l ->
  exists ys, for_each f l w = (Return ys, w)
             /\ Forall2 (fun x y => fst (f x w) = Return y) l ys.
Proof.
  intros Hro. induction 1 as [|x l [y Hy] _ (ys & Hys & Hall)].
  - exists []. split; [reflexivity | constructor].
  - exists (y :: ys). split; [|constructor; assumption].
    simpl. unfold mbind, M_bind, bind.
    pose proof (Hro x w) as Hw. destruct (f x w) as [o w1]. simpl in *. subst.
    now rewrite Hys.
Qed.

(** X7: the input role returns every kept playlist when each of them reads.
    If reading each candidate that passes both filters returns an entry, the
    run returns those entries, one per kept candidate, in discovery order,
    and logs nothing beyond the two counts. *)
Theorem run_inputs_returns_every_kept_playlist :
  forall re_match settings_dict kwargs w playlists w1 pattern,
    component kwargs = "inputs" ->
    discover settings_dict w = (Return playlists, w1) ->
    settings_dict !! "filter" = Some pattern ->
    Forall (fun item => exists entry, fst (read_playlist item w) = Return entry)
           (kept re_match pattern playlists) ->
    exists res,
      run re_match settings_dict kwargs w =
      (Return (Some res),
       logged w1 [log_info (Match_filter
                    (length (name_filter.filter_list re_match
                               (names_of playlists) pattern)))])
      /\ Forall2 (fun item entry => fst (read_playlist item w) = Return entry)
                 (kept re_match pattern playlists) res.
Proof.
  intros re_match settings_dict kwargs w playlists w1 pattern Hrole Hd Hf Hall.
  rewrite (run_inputs_unfold _ _ _ _ _ _ _ Hrole Hd Hf).
  fold (kept re_match pattern playlists).
  set (w2 := World _ _ _).
  assert (Hfs : same_fs w w2).
  { pose proof (preserves_discover settings_dict w) as H. rewrite Hd in H.
    destruct H as [H1 H2]. split; simpl; assumption. }
  destruct (for_each_all_return read_playlist (kept re_match pattern playlists) w2)
    as (res & Hres & Hres2).
  - exact read_only_read_playlist.
  - eapply Forall_impl; [exact Hall|]. intros item [entry He].
    exists entry. now rewrite (read_playlist_same_fs _ _ _ Hfs).
  - exists res. split.
    + unfold bind. rewrite Hres. reflexivity.
    + eapply Forall2_impl; [exact Hres2|]. intros item entry He.
      now rewrite <- (read_playlist_same_fs _ _ _ Hfs).
Qed.

Lemma run_inputs_returns_witness :
  exists res,
    run Examples.no_regex Examples.deep Examples.as_input Examples.deep_world =
    (Return (Some res),
     logged (snd (discover Examples.deep Examples.deep_world))
       [log_info (Match_filter
          (length (name_filter.filter_list Examples.no_regex
                     (names_of [Candidate "Top" "/pl/Top.csv";
                                Candidate "Queen" "/pl/rock/Queen.csv";
                                Candidate "Wembley" "/pl/rock/live/Wembley.csv"]) "")))])
    /\ Forall2 (fun item entry =>
                  fst (read_playlist item Examples.deep_world) = Return entry)
         (kept Examples.no_regex ""
            [Candidate "Top" "/pl/Top.csv";
             Candidate "Queen" "/pl/rock/Queen.csv";
             Candidate "Wembley" "/pl/rock/live/Wembley.csv"]) res.
Proof.
  apply (run_inputs_returns_every_kept_playlist
           Examples.no_regex Examples.deep Examples.as_input Examples.deep_world
           [Candidate "Top" "/pl/Top.csv";
            Candidate "Queen" "/pl/rock/Queen.csv";
            Candidate "Wembley" "/pl/rock/live/Wembley.csv"]
           (snd (discover Examples.deep Examples.deep_world)) "").
  - reflexivity.
  - vm_compute. reflexivity.
  - vm_compute. reflexivity.
  - change (kept Examples.no_regex ""
              [Candidate "Top" "/pl/Top.csv";
               Candidate "Queen" "/pl/rock/Queen.csv";
               Candidate "Wembley" "/pl/rock/live/Wembley.csv"])
      with [Candidate "Top" "/pl/Top.csv";
            Candidate "Queen" "/pl/rock/Queen.csv";
            Candidate "Wembley" "/pl/rock/live/Wembley.csv"].
    apply List.Forall_cons; [eexists; vm_compute; reflexivity|].
    apply List.Forall_cons; [eexists; vm_compute; reflexivity|].
    apply List.Forall_cons; [eexists; vm_compute; reflexivity|].
    apply List.Forall_nil.
Defined.

Lemma read_playlist_well_formed_witness :
  read_playlist (Candidate "Top" "/pl/Top.csv")
    (Examples.top_world (Examples.top_csv Examples.nl))
  = (Return (Entry "Top" ∅
               (map song_of_row
                  [["Queen"; "Bohemian Rhapsody"; "A Night at the Opera"; "GBUM71029604"];
                   ["ABBA"; "Dancing Queen"; "Arrival"; "SEAB89800001"]])),
     Examples.top_world (Examples.top_csv Examples.nl)).
Proof.
  apply (read_playlist_well_formed (Candidate "Top" "/pl/Top.csv")
           (Examples.top_world (Examples.top_csv Examples.nl))
           (Examples.top_csv Examples.nl)).
  - vm_compute. reflexivity.
  - vm_compute. reflexivity.
  - vm_compute. reflexivity.
Defined.

(** ** The settings form and the keys [run] reads *)

Lemma builder_field_names component :
  field_names (builder component)
  = if String.eqb component "inputs" then ["dir"; "recursive"; "filter"]
    else ["dir"; "recursive"].
Proof.
  unfold builder. destruct (String.eqb component "inputs"); vm_compute; reflexivity.
Qed.

Lemma open_read_error_not_KeyError w path e :
  fs.open_read w path = inl e -> is_KeyError e = false.
Proof.
  unfold fs.open_read.
  destruct (fs.resolve w path) as [e'|[[s| |]|l es]]; intros [= <-]; reflexivity.
Qed.

Lemma read_playlist_never_KeyError item w e w' :
  read_playlist item w = (Raise e, w') -> is_KeyError e = false.
Proof.
  rewrite read_playlist_spec.
  destruct (fs.open_read w (cand_path item)) as [e0|text] eqn:Ho.
  - intros [= <- _]. exact (open_read_error_not_KeyError _ _ _ Ho).
  - destruct (csv.reader (io_text.lines text)) as [rows err].
    destruct (existsb short_row rows); [intros [= <- _]; reflexivity|].
    destruct err; [intros [= <- _]; reflexivity | discriminate].
Qed.

Lemma for_each_raise_source {A B} (f : A -> M B) (l : list A) w e w' :
  for_each f l w = (Raise e, w') ->
  exists x w0 w0', In x l /\ f x w0 = (Raise e, w0').
Proof.
  revert w. induction l as [|x l IH]; intros w; [discriminate|].
  simpl. unfold mbind, M_bind. unfold bind at 1.
  destruct (f x w) as [[y|e0] w1] eqn:Ex.
  - unfold bind. destruct (for_each f l w1) as [[ys|e1] w2] eqn:El; [discriminate|].
    intros [= <- <-]. destruct (IH _ El) as (x' & w0 & w0' & Hin & Hx').
    exists x', w0, w0'. split; [now right | exact Hx'].
  - intros [= <- <-]. exists x, w, w1. split; [now left | exact Ex].
Qed.

Lemma read_only_for_each {A B} (f : A -> M B) (l : list A) :
  (forall x, read_only (f x)) -> read_only (for_each f l).
Proof.
  intros Hf. induction l as [|x l IH]; intros w; [reflexivity|].
  simpl. unfold mbind, M_bind, bind.
  pose proof (Hf x w) as Hx. destruct (f x w) as [[y|e] w1]; simpl in *; subst; [|reflexivity].
  pose proof (IH w) as Hl. destruct (for_each f l w) as [[ys|e] w2]; simpl in *; now subst.
Qed.

Lemma scan_result_no_KeyError settings_dict path w recursive :
  settings_dict !! "recursive" = Some recursive ->
  existsb logs_KeyError (snd (scan_result settings_dict path w)) = false.
Proof.
  intros Hrec. unfold scan_result. rewrite Hrec.
  destruct (String.eqb recursive "Yes"); [reflexivity|].
  now destruct (fs.listdir w path).
Qed.

(** X10: the form of [builder] asks for every key [run] reads in the same
    role.  With a settings dict that has a value for each named item of the
    form built for the component, [run] never raises a [KeyError] and never
    logs one. *)
Theorem run_with_the_form_settings_has_no_KeyError :
  forall re_match settings_dict kwargs w,
    (forall name, In name (field_names (builder (component kwargs))) ->
                  is_Some (settings_dict !! name)) ->
    (forall key, fst (run re_match settings_dict kwargs w) <> Raise (KeyError key))
    /\ exists records,
         snd (run re_match settings_dict kwargs w) = logged w records
         /\ existsb logs_KeyError records = false.
Proof.
  intros re_match settings_dict kwargs w Hkeys.
  rewrite builder_field_names in Hkeys.
  assert (Hdir : is_Some (settings_dict !! "dir")).
  { apply Hkeys. destruct (String.eqb _ _); simpl; auto. }
  assert (Hrec : is_Some (settings_dict !! "recursive")).
  { apply Hkeys. destruct (String.eqb _ _); simpl; auto. }
  destruct Hdir as [dir Hdir], Hrec as [recursive Hrec].
  pose proof (discover_spec _ _ w Hdir) as Hd.
  pose proof (scan_result_no_KeyError settings_dict (normalise_dir dir) w _ Hrec) as Hscan.
  destruct (String.eqb (component kwargs) "inputs") eqn:Hrole.
  - apply String.eqb_eq in Hrole.
    assert (Hf : is_Some (settings_dict !! "filter")) by (apply Hkeys; simpl; auto).
    destruct Hf as [pattern Hf].
    rewrite (run_inputs_unfold _ _ _ _ _ _ _ Hrole Hd Hf).
    set (l := List.filter _ _). set (w2 := World _ _ _).
    pose proof (read_only_for_each read_playlist l read_only_read_playlist w2) as Hro.
    unfold bind. destruct (for_each read_playlist l w2) as [[res|e] w3] eqn:Hfe;
      simpl in Hro; subst w3; simpl.
    + split; [discriminate|]. eexists. split.
      * unfold w2, logged. simpl. rewrite <- app_assoc. reflexivity.
      * rewrite existsb_app, existsb_app, Hscan. reflexivity.
    + split.
      * intros key [= ->].
        destruct (for_each_raise_source _ _ _ _ _ Hfe) as (x & w0 & w0' & _ & Hx).
        apply read_playlist_never_KeyError in Hx. discriminate.
      * eexists. split.
        -- unfold w2, logged. simpl. rewrite <- app_assoc. reflexivity.
        -- rewrite existsb_app, existsb_app, Hscan. reflexivity.
  - unfold run, mbind, M_bind. rewrite (bind_return _ _ _ _ _ Hd), Hrole.
    unfold ret. simpl. split; [discriminate|]. eexists. split; [reflexivity|].
    rewrite existsb_app, Hscan. reflexivity.
Qed.

Lemma run_with_the_form_settings_witness :
  (forall key,
     fst (run Examples.no_regex Examples.deep Examples.as_input Examples.unreadable_world)
     <> Raise (KeyError key))
  /\ exists records,
       snd (run Examples.no_regex Examples.deep Examples.as_input
              Examples.unreadable_world)
       = logged Examples.unreadable_world records
       /\ existsb logs_KeyError records = false.
Proof.
  apply (run_with_the_form_settings_has_no_KeyError
           Examples.no_regex Examples.deep Examples.as_input Examples.unreadable_world).
  intros name Hin. vm_compute in Hin.
  destruct Hin as [<- | [<- | [<- | []]]]; vm_compute; eexists; reflexivity.
Defined.

(** ** A directory that cannot be listed, in general *)

Lemma discover_unlistable_flat_witness :
  discover Examples.flat locked_world =
  (Return [],
   World (fs_root locked_world) (fs_cwd locked_world)
     (log locked_world ++ [log_error (OSError PermissionError (normalise_dir "/pl"))]
      ++ [log_info (Found_playlists 0)])).
Proof.
  apply (discover_unlistable_flat Examples.flat "/pl" "No" locked_world PermissionError).
  - vm_compute. reflexivity.
  - vm_compute. reflexivity.
  - discriminate.
  - vm_compute. reflexivity.
Defined.


(** ** Names, paths and the two modes *)




Lemma walk_files_valid n :
  forall top root dirs files item,
    valid_tree n = true ->
    In (root, dirs, files) (fs.walk_node top n) ->
    In item files -> valid_name item = true.
Proof.
  induction n as [c | listable es IH] using node_nested_ind;
    intros top root dirs files item Hv Hin Hitem.
  - destruct Hin.
  - destruct listable; [|destruct Hin].
    simpl in Hv. rewrite forallb_forall in Hv. rewrite List.Forall_forall in IH.
    simpl in Hin. destruct Hin as [Heq | Hin].
    + injection Heq as <- <- <-.
      apply in_map_iff in Hitem as ([item' child] & <- & He).
      apply filter_In in He as [He _]. specialize (Hv _ He). simpl in Hv.
      now apply andb_true_iff in Hv as [Hv _].
    + apply in_flat_map in Hin as ([d child] & He & Hin). simpl in Hin.
      destruct (is_dir child); [|destruct Hin].
      specialize (Hv _ He). simpl in Hv. apply andb_true_iff in Hv as [_ Hv].
      exact (IH _ He _ _ _ _ _ Hv Hin Hitem).
Qed.


(** ** Files of plain comma-separated lines *)

Lemma in_chars_cons c a s :
  PyStr.in_chars c (String a s) = (Ascii.eqb a c || PyStr.in_chars c s)%bool.
Proof. simpl. now rewrite Ascii.eqb_sym. Qed.

Lemma in_chars_append c s t :
  PyStr.in_chars c (s +:+ t) = (PyStr.in_chars c s || PyStr.in_chars c t)%bool.
Proof.
  induction s as [|a s IH]; [reflexivity|].
  rewrite append_cons. simpl. rewrite IH. now rewrite orb_assoc.
Qed.

Lemma plain_char_spec c :
  plain_char c = true ->
  Ascii.eqb c PyStr.chr_comma = false /\ Ascii.eqb c PyStr.chr_quote = false
  /\ Ascii.eqb c PyStr.chr_lf = false /\ Ascii.eqb c PyStr.chr_cr = false.
Proof.
  unfold plain_char. intros H. apply negb_true_iff in H.
  apply orb_false_iff in H as [H Hcr]. apply orb_false_iff in H as [H Hlf].
  apply orb_false_iff in H as [Hc Hq]. auto.
Qed.

Lemma plain_no_char s c :
  plain s = true -> plain_char c = false -> PyStr.in_chars c s = false.
Proof.
  intros Hs Hc. induction s as [|a s IH]; [reflexivity|].
  simpl in *. apply andb_true_iff in Hs as [Ha Hs]. rewrite (IH Hs), orb_false_r.
  destruct (Ascii.eqb c a) eqn:E; [|reflexivity].
  apply Ascii.eqb_eq in E. subst. congruence.
Qed.

Lemma str_join_cons sep x y l :
  str_join sep (x :: y :: l) = x +:+ sep +:+ str_join sep (y :: l).
Proof. reflexivity. Qed.

Lemma str_join_no_char c row :
  Ascii.eqb c PyStr.chr_comma = false ->
  plain_char c = false ->
  forallb plain_field row = true ->
  PyStr.in_chars c (str_join "," row) = false.
Proof.
  intros Hcomma Hc. induction row as [|f row IH]; [reflexivity|].
  simpl forallb. intros H. apply andb_true_iff in H as [Hf Hrow].
  unfold plain_field in Hf. apply andb_true_iff in Hf as [Hf _].
  destruct row as [|g row].
  - now apply plain_no_char.
  - rewrite str_join_cons, !in_chars_append, (plain_no_char _ _ Hf Hc), (IH Hrow).
    simpl. unfold PyStr.chr_comma in Hcomma. now rewrite Hcomma.
Qed.

Lemma translate_newlines_id s :
  PyStr.in_chars PyStr.chr_cr s = false -> io_text.translate_newlines s = s.
Proof.
  induction s as [|a s IH]; [reflexivity|].
  rewrite in_chars_cons. intros H. apply orb_false_iff in H as [Ha Hs].
  simpl io_text.translate_newlines. rewrite Ha. now rewrite (IH Hs).
Qed.

Lemma split_lines_line body rest :
  PyStr.in_chars PyStr.chr_lf body = false ->
  io_text.split_lines (body +:+ String PyStr.chr_lf rest)
  = (body +:+ String PyStr.chr_lf "") :: io_text.split_lines rest.
Proof.
  induction body as [|a body IH].
  - intros _. rewrite !append_nil_l. simpl. reflexivity.
  - rewrite in_chars_cons. intros H. apply orb_false_iff in H as [Ha Hb].
    rewrite !append_cons. simpl io_text.split_lines.
    rewrite Ha. now rewrite (IH Hb).
Qed.

Lemma plain_row_fields row : plain_row row = true -> forallb plain_field row = true.
Proof.
  destruct row as [|f row]; [discriminate|].
  destruct f, row; try discriminate; trivial.
Qed.

Lemma csv_text_no_cr rows :
  forallb plain_row rows = true ->
  PyStr.in_chars PyStr.chr_cr (csv_text rows) = false.
Proof.
  induction rows as [|row rows IH]; [reflexivity|].
  simpl. intros H. apply andb_true_iff in H as [Hrow Hrows].
  unfold csv_line. rewrite !in_chars_append, (IH Hrows).
  rewrite (str_join_no_char PyStr.chr_cr _ eq_refl eq_refl (plain_row_fields _ Hrow)).
  reflexivity.
Qed.

Lemma lines_csv_text rows :
  forallb plain_row rows = true ->
  io_text.lines (csv_text rows) = map csv_line rows.
Proof.
  intros H. unfold io_text.lines. rewrite (translate_newlines_id _ (csv_text_no_cr _ H)).
  induction rows as [|row rows IH]; [reflexivity|].
  simpl in H. apply andb_true_iff in H as [Hrow Hrows].
  change (csv_text (row :: rows)) with (csv_line row +:+ csv_text rows).
  change (map csv_line (row :: rows)) with (csv_line row :: map csv_line rows).
  unfold csv_line at 1. rewrite append_assoc.
  change (String PyStr.chr_lf "" +:+ csv_text rows)
    with (String PyStr.chr_lf (csv_text rows)).
  rewrite split_lines_line.
  - now rewrite (IH Hrows).
  - exact (str_join_no_char PyStr.chr_lf _ eq_refl eq_refl (plain_row_fields _ Hrow)).
Qed.

Lemma len_nonneg s : (0 <= io_text.len s)%Z.
Proof.
  induction s as [|a s IH]; simpl; [lia|].
  destruct (Z.land _ 192 =? 128)%Z; lia.
Qed.

Lemma len_append s t : io_text.len (s +:+ t) = (io_text.len s + io_text.len t)%Z.
Proof.
  induction s as [|a s IH]; [reflexivity|].
  rewrite append_cons. simpl. rewrite IH. lia.
Qed.

Lemma add_char_fits self c :
  (io_text.len (csv.field self) < csv.field_limit)%Z ->
  csv.parse_add_char self c
  = inr (csv.Reader (csv.state self) (csv.fields self)
           (csv.field self +:+ String c "")).
Proof.
  intros H. unfold csv.parse_add_char.
  replace (csv.field_limit <=? io_text.len (csv.field self))%Z with false
    by (symmetry; apply Z.leb_gt; exact H).
  reflexivity.
Qed.

Lemma is_newline_plain c : plain_char c = true -> csv.is_newline c = false.
Proof.
  intros H. destruct (plain_char_spec c H) as (_ & _ & Hlf & Hcr).
  unfold csv.is_newline. now rewrite Hlf, Hcr.
Qed.

(** Plain characters grow the current unquoted field. *)
Lemma process_in_field f :
  forall cur fs rest,
    plain f = true ->
    (io_text.len (cur +:+ f) < csv.field_limit)%Z ->
    csv.process_line (csv.Reader csv.IN_FIELD fs cur) (f +:+ rest)
    = csv.process_line (csv.Reader csv.IN_FIELD fs (cur +:+ f)) rest.
Proof.
  induction f as [|c f IH]; intros cur fs rest Hp Hlen.
  - now rewrite append_nil_l, append_nil_r.
  - simpl in Hp. apply andb_true_iff in Hp as [Hc Hf].
    rewrite append_cons. simpl csv.process_line.
    unfold csv.parse_process_char. simpl csv.state.
    rewrite (is_newline_plain c Hc).
    destruct (plain_char_spec c Hc) as (Hcomma & _).
    rewrite Hcomma.
    rewrite add_char_fits.
    + simpl. replace (cur +:+ String c f) with ((cur +:+ String c "") +:+ f) in *
        by (rewrite append_assoc; reflexivity).
      now apply IH.
    + simpl. rewrite len_append in Hlen. pose proof (len_nonneg (String c f)). lia.
Qed.

(** A plain field read from the start of a field. *)
Lemma process_field f fs rest :
  plain_field f = true ->
  csv.process_line (csv.Reader csv.START_FIELD fs "") (f +:+ rest)
  = match f with
    | EmptyString => csv.process_line (csv.Reader csv.START_FIELD fs "") rest
    | _ => csv.process_line (csv.Reader csv.IN_FIELD fs f) rest
    end.
Proof.
  unfold plain_field. intros H. apply andb_true_iff in H as [Hp Hlen].
  apply Z.ltb_lt in Hlen.
  destruct f as [|c f]; [reflexivity|].
  simpl in Hp. apply andb_true_iff in Hp as [Hc Hf].
  rewrite append_cons. simpl csv.process_line.
  unfold csv.parse_process_char, csv.start_field. simpl csv.state.
  rewrite (is_newline_plain c Hc).
  destruct (plain_char_spec c Hc) as (Hcomma & Hquote & _).
  rewrite Hquote, Hcomma.
  rewrite add_char_fits by (simpl; unfold csv.field_limit; lia).
  simpl. unfold csv.set_state. simpl.
  apply (process_in_field f (String c "") fs rest Hf Hlen).
Qed.

(** A line of plain fields, read from the start of a field, ends the
    record with those fields added. *)
Lemma process_plain_fields row :
  forall fs,
    row <> [] ->
    forallb plain_field row = true ->
    csv.process_line (csv.Reader csv.START_FIELD fs "") (csv_line row)
    = inr (csv.Reader csv.START_RECORD (fs ++ row) "").
Proof.
  induction row as [|f row IH]; intros fs Hne Hall; [congruence|].
  simpl in Hall. apply andb_true_iff in Hall as [Hf Hrow].
  destruct row as [|g row].
  - unfold csv_line. simpl str_join. rewrite (process_field f fs _ Hf).
    destruct f as [|c f]; reflexivity.
  - assert (Hline : csv_line (f :: g :: row)
                    = f +:+ String PyStr.chr_comma (csv_line (g :: row))).
    { unfold csv_line. simpl str_join. rewrite !append_assoc. reflexivity. }
    rewrite Hline, (process_field f fs _ Hf).
    assert (Hnext : forall st cur,
              (st = csv.START_FIELD /\ cur = "") \/ st = csv.IN_FIELD ->
              csv.process_line (csv.Reader st fs cur)
                (String PyStr.chr_comma (csv_line (g :: row)))
              = inr (csv.Reader csv.START_RECORD (fs ++ cur :: g :: row) "")).
    { intros st cur Hst. simpl csv.process_line.
      assert (Hstep : csv.parse_process_char (csv.Reader st fs cur) (Some PyStr.chr_comma)
                      = inr (csv.Reader csv.START_FIELD (fs ++ [cur]) "")).
      { destruct Hst as [[-> ->] | ->]; reflexivity. }
      rewrite Hstep, (IH (fs ++ [cur])); [|discriminate | exact Hrow].
      now rewrite <- app_assoc. }
    destruct f as [|c f]; apply Hnext; auto.
Qed.

(** The first character of a line of plain fields is no line break, so the
    record starts like a field. *)
Lemma process_plain_row row :
  plain_row row = true ->
  csv.process_line csv.parse_reset (csv_line row)
  = inr (csv.Reader csv.START_RECORD row "").
Proof.
  intros Hrow. pose proof (plain_row_fields _ Hrow) as Hall.
  transitivity (csv.process_line (csv.Reader csv.START_FIELD [] "") (csv_line row));
    [|apply (process_plain_fields row []); [destruct row; discriminate | exact Hall]].
  - destruct row as [|f row]; [discriminate|].
    destruct f as [|c f].
    + destruct row as [|g row]; [discriminate|]. reflexivity.
    + simpl in Hall. apply andb_true_iff in Hall as [Hf _].
      unfold plain_field in Hf. apply andb_true_iff in Hf as [Hf _].
      simpl in Hf. apply andb_true_iff in Hf as [Hc _].
      assert (Hline : exists rest, csv_line (String c f :: row) = String c rest).
      { unfold csv_line. destruct row; simpl str_join; rewrite ?append_cons; eauto. }
      destruct Hline as [rest ->]. simpl csv.process_line.
      assert (Hfirst : csv.parse_process_char csv.parse_reset (Some c)
                       = csv.parse_process_char (csv.Reader csv.START_FIELD [] "")
                           (Some c)).
      { unfold csv.parse_process_char. simpl csv.state.
        now rewrite (is_newline_plain c Hc). }
      now rewrite Hfirst.
Qed.

Lemma reader_plain_lines rows :
  forallb plain_row rows = true ->
  csv.reader (map csv_line rows) = (rows, None).
Proof.
  unfold csv.reader. induction rows as [|row rows IH]; [reflexivity|].
  simpl forallb. intros H. apply andb_true_iff in H as [Hrow Hrows].
  simpl. rewrite (process_plain_row row Hrow). simpl. now rewrite (IH Hrows).
Qed.

Lemma plain_song_row s : plain_song s = true -> plain_row (song_fields s) = true.
Proof.
  destruct s as [a t al i]. unfold plain_song, song_fields, plain_row. simpl.
  destruct a; trivial.
Qed.

Lemma song_of_row_fields s : song_of_row (song_fields s) = s.
Proof. now destruct s. Qed.

(** X9: a playlist file made of plain lines reads back as its songs.  When
    the file of a candidate holds one line per song, the four fields
    separated by commas and ended by a line feed, and the fields have no
    comma, quote or line break and stay under the field limit, reading it
    gives the entry named after the candidate with exactly those songs, in
    line order, and an empty id. *)
Theorem read_playlist_of_plain_lines :
  forall item w songs,
    forallb plain_song songs = true ->
    fs.open_read w (cand_path item) = inr (csv_text (map song_fields songs)) ->
    read_playlist item w = (Return (Entry (cand_name item) ∅ songs), w).
Proof.
  intros item w songs Hplain Hopen.
  assert (Hrows : forallb plain_row (map song_fields songs) = true).
  { rewrite forallb_forall in Hplain |- *. intros row Hin.
    apply in_map_iff in Hin as (s & <- & Hs). exact (plain_song_row _ (Hplain _ Hs)). }
  rewrite read_playlist_spec, Hopen, (lines_csv_text _ Hrows),
    (reader_plain_lines _ Hrows).
  replace (existsb short_row (map song_fields songs)) with false.
  - rewrite map_map. f_equal. f_equal. f_equal.
    rewrite <- (map_id songs) at 2. apply map_ext. apply song_of_row_fields.
  - symmetry. clear. induction songs as [|s songs IH]; [reflexivity|]. exact IH.
Qed.

Lemma read_playlist_of_plain_lines_witness :
  read_playlist (Candidate "Top" "/pl/Top.csv")
    (Examples.top_world (Examples.top_csv Examples.nl))
  = (Return (Entry "Top" ∅ [Examples.queen; Examples.abba]),
     Examples.top_world (Examples.top_csv Examples.nl)).
Proof.
  apply (read_playlist_of_plain_lines (Candidate "Top" "/pl/Top.csv")
           (Examples.top_world (Examples.top_csv Examples.nl))
           [Examples.queen; Examples.abba]).
  - vm_compute. reflexivity.
  - vm_compute. reflexivity.
Defined.

(** ** Revisions *)

(** C6 at a directory that holds a subdirectory named like a playlist, and
    at the root directory.  In [/pl], one regular file has a supported
    extension (N = 1) and no entry lacks one (M = 0), yet the non-recursive
    scan returns two candidates: [os.listdir] gives the directory [x.csv]
    too and nothing tests for a regular file, so the input run then fails to
    open it.  The recursive scan of the same directory takes the files of
    [os.walk] only: [a.csv], and [b.csv] one level down.  For the root
    directory line 76 strips the whole path, and neither mode finds its
    playlist. *)
Theorem discovery_counts_a_directory_named_like_a_playlist :
  supported_files_here directory_named_like_a_playlist = 1
  /\ unsupported_entries_here directory_named_like_a_playlist = 0
  /\ fst (discover Examples.flat (Examples.world_with_pl directory_named_like_a_playlist))
     = Return [Candidate "a" "/pl/a.csv"; Candidate "x" "/pl/x.csv"]
  /\ fst (run Examples.no_regex Examples.flat Examples.as_input
            (Examples.world_with_pl directory_named_like_a_playlist))
     = Raise (OSError IsADirectoryError "/pl/x.csv")
  /\ fst (discover Examples.deep (Examples.world_with_pl directory_named_like_a_playlist))
     = Return [Candidate "a" "/pl/a.csv"; Candidate "b" "/pl/x.csv/b.csv"]
  /\ fs.listdir root_world "/" = inr ["a.csv"]
  /\ normalise_dir "/" = ""
  /\ fst (discover (Examples.settings "/" "No" "") root_world) = Return []
  /\ fst (discover (Examples.settings "/" "Yes" "") root_world) = Return [].
Proof. repeat split; vm_compute; reflexivity. Qed.

(** X12: recursive mode, directory that cannot be listed.  For a path
    without a NUL character, a directory that is missing, is no directory or
    may not be listed makes [os.walk] yield nothing without raising, so the
    handler never runs: the candidate list is empty and no error reaches the
    log. *)
Theorem discover_recursive_swallows_listing_errors :
  forall settings_dict dir w e,
    settings_dict !! "dir" = Some dir ->
    settings_dict !! "recursive" = Some "Yes" ->
    no_nul (normalise_dir dir) = true ->
    fs.listdir w (normalise_dir dir) = inl e ->
    discover settings_dict w =
      (Return [],
       World (fs_root w) (fs_cwd w) (log w ++ [log_info (Found_playlists 0)])).
Proof.
  intros settings_dict dir w e Hdir Hrec _ Hls.
  exact (discover_unlistable_recursive settings_dict dir w e Hdir Hrec Hls).
Qed.

Lemma discover_recursive_swallows_witness :
  discover Examples.deep locked_world =
  (Return [],
   World (fs_root locked_world) (fs_cwd locked_world)
     (log locked_world ++ [log_info (Found_playlists 0)])).
Proof.
  apply (discover_recursive_swallows_listing_errors
           Examples.deep "/pl" locked_world PermissionError).
  - vm_compute. reflexivity.
  - vm_compute. reflexivity.
  - vm_compute. reflexivity.
  - vm_compute. reflexivity.
Defined.

(** The files a walk reports are entries of the directories it names. *)
Lemma walk_entries n :
  forall top root ds files item,
    In (root, ds, files) (fs.walk_node top n) ->
    In item files ->
    exists dirs,
      root = fold_left os_path.join dirs top /\ has_entry n dirs item = true.
Proof.
  induction n as [c | listable es IH] using node_nested_ind;
    intros top root ds files item Hin Hitem.
  - destruct Hin.
  - destruct listable; [|destruct Hin].
    rewrite List.Forall_forall in IH.
    simpl in Hin. destruct Hin as [Heq | Hin].
    + injection Heq as <- <- <-. exists []. split; [reflexivity|].
      apply in_map_iff in Hitem as ([item' child] & <- & He).
      apply filter_In in He as [He _].
      simpl. apply existsb_exists. exists (item', child). split; [exact He|].
      apply String.eqb_refl.
    + apply in_flat_map in Hin as ([d child] & He & Hin). simpl in Hin.
      destruct (is_dir child); [|destruct Hin].
      destruct (IH _ He _ _ _ _ _ Hin Hitem) as (dirs & -> & Hentry).
      exists (d :: dirs). split; [reflexivity|].
      simpl. apply existsb_exists. exists (d, child). split; [exact He|].
      simpl in Hentry |- *. rewrite String.eqb_refl. exact Hentry.
Qed.

Lemma scanned_candidates_entries settings_dict path w n item :
  fs.resolve w path = inr n ->
  valid_tree n = true ->
  In item (fst (scan_result settings_dict path w)) ->
  exists dirs file,
    item = candidate (fold_left os_path.join dirs path) file
    /\ has_entry n dirs file = true
    /\ valid_name file = true.
Proof.
  unfold scan_result. intros Hres Hv.
  destruct (settings_dict !! "recursive") as [recursive|]; [|intros []].
  destruct (String.eqb recursive "Yes").
  - unfold fs.walk. rewrite Hres.
    simpl. intros Hin. apply in_flat_map in Hin as ([[root ds] files] & Hwalk & Hin).
    apply in_map_iff in Hin as (file & <- & Hfile).
    destruct (walk_entries _ _ _ _ _ _ Hwalk Hfile) as (dirs & -> & Hentry).
    exists dirs, file. split; [reflexivity|]. split; [exact Hentry|].
    exact (walk_files_valid _ _ _ _ _ _ Hv Hwalk Hfile).
  - unfold fs.listdir. rewrite Hres. destruct n as [c|[|] es]; try intros [].
    simpl. intros Hin. apply in_map_iff in Hin as (file & <- & Hfile).
    apply in_map_iff in Hfile as ([file' child] & <- & He).
    exists [], file'. split; [reflexivity|]. split.
    + simpl. apply existsb_exists. exists (file', child). split; [exact He|].
      apply String.eqb_refl.
    + simpl in Hv. rewrite forallb_forall in Hv. specialize (Hv _ He). simpl in Hv.
      now apply andb_true_iff in Hv as [Hv _].
Qed.

(** X14: a discovered playlist is named after its file.  Every candidate
    that survives the extension filter stands for an entry [file] of the
    scanned directory or, with recursion, of a directory nested in it
    through the entries [dirs]; the entry has no slash, [os.path.splitext]
    splits it into the candidate's name and a supported extension, and the
    candidate's path is the directory path, built by joining [dirs] onto
    the normalised setting, joined with [file].  So the name is the last
    path component without its [.csv]. *)
Theorem discovered_name_is_file_name_without_extension :
  forall settings_dict w dir n playlists w',
    settings_dict !! "dir" = Some dir ->
    fs.resolve w (normalise_dir dir) = inr n ->
    valid_tree n = true ->
    discover settings_dict w = (Return playlists, w') ->
    Forall (fun item =>
              exists dirs file ext,
                has_entry n dirs file = true
                /\ valid_name file = true
                /\ In ext supported_playlist_extensions
                /\ os_path.splitext file = (cand_name item, ext)
                /\ file = cand_name item +:+ ext
                /\ cand_path item
                   = os_path.join (fold_left os_path.join dirs (normalise_dir dir)) file)
           playlists.
Proof.
  intros settings_dict w dir n playlists w' Hdir Hres Hv Hd.
  rewrite (discover_spec _ _ w Hdir) in Hd. injection Hd as <- _.
  apply List.Forall_forall. intros item Hin.
  apply filter_In in Hin as [Hin Hext].
  destruct (scanned_candidates_entries _ _ _ _ _ Hres Hv Hin)
    as (dirs & file & -> & Hentry & Hfile).
  rewrite (candidate_supported _ _ Hfile) in Hext.
  unfold supported_name in Hext. apply in_list_In in Hext.
  exists dirs, file, (snd (os_path.splitext file)).
  split; [exact Hentry|]. split; [exact Hfile|]. split; [exact Hext|].
  simpl. split; [now destruct (os_path.splitext file)|].
  split; [symmetry; apply splitext_app | reflexivity].
Qed.

Lemma discovered_name_witness :
  Forall (fun item =>
            exists dirs file ext,
              has_entry (Dir true Examples.deep_entries) dirs file = true
              /\ valid_name file = true
              /\ In ext supported_playlist_extensions
              /\ os_path.splitext file = (cand_name item, ext)
              /\ file = cand_name item +:+ ext
              /\ cand_path item
                 = os_path.join (fold_left os_path.join dirs (normalise_dir "/pl")) file)
         [Candidate "Top" "/pl/Top.csv";
          Candidate "Queen" "/pl/rock/Queen.csv";
          Candidate "Wembley" "/pl/rock/live/Wembley.csv"].
Proof.
  apply (discovered_name_is_file_name_without_extension
           Examples.deep Examples.deep_world "/pl" (Dir true Examples.deep_entries) _
           (snd (discover Examples.deep Examples.deep_world))).
  - vm_compute. reflexivity.
  - vm_compute. reflexivity.
  - vm_compute. reflexivity.
  - vm_compute. reflexivity.
Defined.
